(** * Projects keeper and add-genesis-account: a shallow embedding

    The first part embeds the projects keeper ([GetProjectForBlock],
    [GetProjectDeveloperData], [GetProjectForDeveloper], [AddKeysToProject],
    [GetProjectDevelopersPolicy], [AddComputeUnitsToProject] and
    [ValidateChainPolicies]); the second part embeds the [RunE] closure of
    [AddGenesisAccountCmd].

    Go values are modelled as follows: [uint64] and [int64] are [Z] with the
    conversions and the wrap-around written out, [string] is [string], a slice
    is a [list], a pointer that may be nil is an [option], an [error] is an
    [option error] whose [None] is Go's [nil].  The keeper's stores and the
    logger are threaded explicitly through a [State]. *)

From Stdlib Require Import ZArith String List Bool Lia.
From stdpp Require Import base option gmap strings list fin_maps.
Import ListNotations.

Local Open Scope string_scope.
Local Open Scope Z_scope.

(** ** Machine integers *)

Definition uint64_modulus : Z := 2 ^ 64.

(** Reduction of a mathematical integer to the value a [uint64] holds. *)
Definition wrap64 (z : Z) : Z := z mod uint64_modulus.

(** Go's conversion [uint64(x)] of an [int64]. *)
Definition uint64_of_int64 (x : Z) : Z := wrap64 x.

(** Go's [a + b] on [uint64]. *)
Definition uint64_add (a b : Z) : Z := wrap64 (a + b).

Definition in_uint64 (z : Z) : Prop := 0 <= z < uint64_modulus.

(** [strconv.FormatUint(n, 10)] for a value in range. *)
Fixpoint FormatUint_digits (fuel : nat) (n : Z) (acc : string) : string :=
  match fuel with
  | O => acc
  | S fuel' =>
      let d := String (Ascii.ascii_of_N (48 + Z.to_N (n mod 10))) acc in
      if n / 10 =? 0 then d else FormatUint_digits fuel' (n / 10) d
  end.

Definition FormatUint (n : Z) : string := FormatUint_digits 20 n "".

(** ** Errors and the error-reporting sink *)

(** The Go [error] values that reach the callers of the keeper.  [LavaErr]
    is what [utils.LavaError] returns, [Errorf] is the result of a
    [fmt.Errorf] call with the formatted message, and [StoreErr] is an error
    produced inside the fixation store. *)
Inductive StoreError : Type :=
  | DuplicateVersionError
  | NotFoundError
  | StaleHeightError
  | StorageFaultError.

Inductive error : Type :=
  | LavaErr (name : string) (attrs : list (string * string)) (description : string)
  | Errorf (msg : string)
  | StoreErr (e : StoreError).

(** A record of the sink: event name, key-value details, message. *)
Record Report : Type := mkReport {
  event_name : string;
  details : list (string * string);
  message : string
}.

Definition error_of_report (r : Report) : error :=
  LavaErr (event_name r) (details r) (message r).

(** ** Domain types *)

Record ChainPolicy : Type := mkChainPolicy {
  ChainId : string;
  Apis : list string
}.

Record Policy : Type := mkPolicy {
  ChainPolicies : list ChainPolicy
}.

Record ProjectKey : Type := mkProjectKey {
  Key : string;
  Vrfpk : string
}.

(** Modelled from the spec: [types.Project] is declared outside the files
    embedded here.  The fields [Index], [UsedCu], [AdminPolicy] and
    [SubscriptionPolicy] are the ones the keeper reads and writes; the data
    model gives the payload its admin keys and its developer keys. *)
Record Project : Type := mkProject {
  Index : string;
  AdminKeys : list string;
  ProjectKeys : list ProjectKey;
  UsedCu : Z;
  AdminPolicy : Policy;
  SubscriptionPolicy : Policy
}.

(** The zero value of [types.Project], what [var project types.Project]
    holds. *)
Definition zero_Project : Project :=
  mkProject "" [] [] 0 (mkPolicy []) (mkPolicy []).

Record ProtoDeveloperData : Type := mkProtoDeveloperData {
  ProjectID : string;
  DevVrfpk : string
}.

Definition zero_ProtoDeveloperData : ProtoDeveloperData :=
  mkProtoDeveloperData "" "".

(** Modelled from the spec: [Project.IsAdminKey] is declared outside the
    files embedded here; the key is among the project's admin keys. *)
Definition IsAdminKey (project : Project) (key : string) : bool :=
  existsb (String.eqb key) (AdminKeys project).

(** Modelled from the spec: [Project.AppendKey] is declared outside the
    files embedded here; the key is appended to the project's key list. *)
Definition AppendKey (project : Project) (projectKey : ProjectKey) : Project :=
  mkProject (Index project) (AdminKeys project)
            (ProjectKeys project ++ [projectKey])
            (UsedCu project) (AdminPolicy project) (SubscriptionPolicy project).

Definition set_UsedCu (project : Project) (cu : Z) : Project :=
  mkProject (Index project) (AdminKeys project) (ProjectKeys project)
            cu (AdminPolicy project) (SubscriptionPolicy project).

(** The chain specification as the validator sees it. *)
Record ServiceApi : Type := mkServiceApi {
  Name : string
}.

Record Spec : Type := mkSpec {
  SpecIndex : string;
  Enabled : bool;
  SpecApis : list ServiceApi
}.

Definition zero_Spec : Spec := mkSpec "" false [].

(** ** The fixation store interface

    [common.FixationStore] is used by the keeper through three entry points.
    [FindEntry] returns Go's [(error, bool)] together with the value behind
    the out-pointer after the call (the last argument is its value before the
    call); it is a read and returns no new store.  [AppendEntry] and
    [ModifyEntry] return the store after the call and the [error]. *)
Class FixationStoreOps : Type := {
  FixationStore : Type -> Type;
  FindEntry : forall {T : Type},
      FixationStore T -> string -> Z -> T -> option error * bool * T;
  AppendEntry : forall {T : Type},
      FixationStore T -> string -> Z -> T -> FixationStore T * option error;
  ModifyEntry : forall {T : Type},
      FixationStore T -> string -> Z -> T -> FixationStore T * option error
}.

(** ** The keeper *)

Section Keeper.

Context `{FS : FixationStoreOps}.

(** The state the keeper's methods act on: the two fixation stores held by
    the [Keeper], the specification registry behind [specKeeper], and the
    two parts of [sdk.Context] the methods use (the block height, an
    [int64], and the logger that [utils.LavaError] writes to). *)
Record State : Type := mkState {
  projectsFS : FixationStore Project;
  developerKeysFS : FixationStore ProtoDeveloperData;
  specKeeper : string -> Spec * bool;
  logger : list Report;
  BlockHeight : Z
}.

Definition set_projectsFS (s : State) (fs : FixationStore Project) : State :=
  mkState fs (developerKeysFS s) (specKeeper s) (logger s) (BlockHeight s).

Definition set_developerKeysFS (s : State)
    (fs : FixationStore ProtoDeveloperData) : State :=
  mkState (projectsFS s) fs (specKeeper s) (logger s) (BlockHeight s).

Definition set_logger (s : State) (l : list Report) : State :=
  mkState (projectsFS s) (developerKeysFS s) (specKeeper s) l (BlockHeight s).

(** Modelled from the spec: [utils.LavaError] is declared outside the files
    embedded here.  It hands the structured failure record (event name,
    key-value details, message) to the sink and returns it as the error. *)
Definition LavaError (s : State) (name : string)
    (attrs : list (string * string)) (description : string) : State * error :=
  (set_logger s (logger s ++ [mkReport name attrs description]),
   LavaErr name attrs description).

(** Go's [err != nil]. *)
Definition not_nil (err : option error) : bool :=
  match err with Some _ => true | None => false end.

Definition GetProjectForBlock (s : State) (projectID : string) (blockHeight : Z)
    : State * (Project * option error) :=
  let '(err, found, project) :=
    FindEntry (projectsFS s) projectID blockHeight zero_Project in
  if not_nil err || negb found then
    let '(s', e) :=
      LavaError s "GetProjectForBlock_not_found"
        [("project", projectID); ("blockHeight", FormatUint blockHeight)]
        "project not found" in
    (s', (project, Some e))
  else (s, (project, None)).

Definition GetProjectDeveloperData (s : State) (developerKey : string)
    (blockHeight : Z) : State * (ProtoDeveloperData * option error) :=
  let '(err, found, projectDeveloperData) :=
    FindEntry (developerKeysFS s) developerKey blockHeight
      zero_ProtoDeveloperData in
  if not_nil err || negb found then
    (s, (zero_ProtoDeveloperData,
         Some (Errorf ("GetProjectIDForDeveloper_invalid_key, the requesting key is not registered to a project, developer: " ++ developerKey))))
  else (s, (projectDeveloperData, None)).

Definition GetProjectForDeveloper (s : State) (developerKey : string)
    (blockHeight : Z) : State * (Project * string * option error) :=
  let project := zero_Project in
  let '(s1, (projectDeveloperData, err)) :=
    GetProjectDeveloperData s developerKey blockHeight in
  match err with
  | Some e => (s1, (project, "", Some e))
  | None =>
      let '(err, found, project) :=
        FindEntry (projectsFS s1) (ProjectID projectDeveloperData)
          blockHeight project in
      match err with
      | Some e => (s1, (project, "", Some e))
      | None =>
          if negb found then
            let '(s2, e) :=
              LavaError s1 "GetProjectForDeveloper_project_not_found"
                [("developer", developerKey);
                 ("project", ProjectID projectDeveloperData)]
                "the developers project was not found" in
            (s2, (project, "", Some e))
          else (s1, (project, DevVrfpk projectDeveloperData, None))
      end
  end.

(** Modelled from the spec: [RegisterDeveloperKey] is declared outside the
    files embedded here.  It fails if a live developer-key record already
    exists for the key at the height, whichever project it points to, and
    otherwise appends the record to the developer-key store.  The failure
    is the taxonomy's [UniquenessViolationError], reported to the sink like
    the other domain failures; a storage fault of the lookup is returned as
    it is. *)
Definition RegisterDeveloperKey (s : State) (developerKey projectID : string)
    (blockHeight : Z) (vrfpk : string) : State * option error :=
  let '(err, found, _) :=
    FindEntry (developerKeysFS s) developerKey blockHeight
      zero_ProtoDeveloperData in
  match err with
  | Some e => (s, Some e)
  | None =>
      if found then
        let '(s', e) :=
          LavaError s "UniquenessViolationError"
            [("developer", developerKey); ("project", projectID)]
            "developer key already bound to a project" in
        (s', Some e)
      else
        let '(fs', err') :=
          AppendEntry (developerKeysFS s) developerKey blockHeight
            (mkProtoDeveloperData projectID vrfpk) in
        (set_developerKeysFS s fs', err')
  end.

(** The [for _, projectKey := range projectKeys] loop of [AddKeysToProject]:
    the state and the in-memory project after the loop, and the error of the
    iteration that returned, if one did. *)
Fixpoint AddKeysToProject_loop (s : State) (project : Project)
    (projectKeys : list ProjectKey) : State * Project * option error :=
  match projectKeys with
  | [] => (s, project, None)
  | projectKey :: rest =>
      let '(s', err) :=
        RegisterDeveloperKey s (Key projectKey) (Index project)
          (uint64_of_int64 (BlockHeight s)) (Vrfpk projectKey) in
      match err with
      | Some e => (s', project, Some e)
      | None => AddKeysToProject_loop s' (AppendKey project projectKey) rest
      end
  end.

Definition AddKeysToProject (s : State) (projectID adminKey : string)
    (projectKeys : list ProjectKey) : State * option error :=
  let '(err, found, project) :=
    FindEntry (projectsFS s) projectID (uint64_of_int64 (BlockHeight s))
      zero_Project in
  if not_nil err || negb found then
    let '(s', e) :=
      LavaError s "AddProjectKeys_project_not_found"
        [("project", projectID)] "project id not found" in
    (s', Some e)
  else if negb (IsAdminKey project adminKey) then
    let '(s', e) :=
      LavaError s "AddProjectKeys_not_admin"
        [("project", projectID)] "the requesting key is not admin key" in
    (s', Some e)
  else
    let '(s1, project, err) := AddKeysToProject_loop s project projectKeys in
    match err with
    | Some e => (s1, Some e)
    | None =>
        let '(fs', err') :=
          AppendEntry (projectsFS s1) projectID
            (uint64_of_int64 (BlockHeight s1)) project in
        (set_projectsFS s1 fs', err')
    end.

Definition GetProjectDevelopersPolicy (s : State) (developerKey : string)
    (blockHeight : Z) (adminPolicy : bool) : State * (Policy * option error) :=
  let '(s1, (project, _, err)) :=
    GetProjectForDeveloper s developerKey blockHeight in
  match err with
  | Some e => (s1, (mkPolicy [], Some e))
  | None =>
      if adminPolicy then (s1, (AdminPolicy project, None))
      else (s1, (SubscriptionPolicy project, None))
  end.

(** [project] is Go's [*types.Project]: [None] is the nil pointer.  The
    second component of the result is the pointee after the call, which the
    caller's pointer still refers to. *)
Definition AddComputeUnitsToProject (s : State) (project : option Project)
    (cu : Z) : State * option Project * option error :=
  match project with
  | None =>
      let '(s', e) :=
        LavaError s "AddComputeUnitsToProject_project_nil" []
          "project is nil" in
      (s', None, Some e)
  | Some p =>
      let p := set_UsedCu p (uint64_add (UsedCu p) cu) in
      let '(fs', err) :=
        ModifyEntry (projectsFS s) (Index p)
          (uint64_of_int64 (BlockHeight s)) p in
      (set_projectsFS s fs', Some p, err)
  end.

(** The innermost loop of [ValidateChainPolicies]: [foundApi] after the
    [for _, api := range spec.GetApis()] loop, which scans every API and
    never leaves early. *)
Fixpoint foundApi_loop (apis : list ServiceApi) (policyApi : string)
    (foundApi : bool) : bool :=
  match apis with
  | [] => foundApi
  | api :: rest =>
      foundApi_loop rest policyApi
        (if String.eqb (Name api) policyApi then true else foundApi)
  end.

(** The [for _, policyApi := range chainPolicy.GetApis()] loop: the error of
    the first iteration that returns. *)
Fixpoint policyApis_loop (s : State) (spec : Spec) (policyApis : list string)
    : State * option error :=
  match policyApis with
  | [] => (s, None)
  | policyApi :: rest =>
      let foundApi := foundApi_loop (SpecApis spec) policyApi false in
      if negb foundApi then
        let details := [("specIndex", SpecIndex spec); ("API", policyApi)] in
        let '(s', e) :=
          LavaError s "validateChainPolicies_chain_policy_api_not_found"
            details "policy's spec's API not found" in
        (s', Some e)
      else policyApis_loop s spec rest
  end.

(** The outer [for _, chainPolicy := range policy.GetChainPolicies()] loop. *)
Fixpoint chainPolicies_loop (s : State) (chainPolicies : list ChainPolicy)
    : State * option error :=
  match chainPolicies with
  | [] => (s, None)
  | chainPolicy :: rest =>
      let '(spec, found) := specKeeper s (ChainId chainPolicy) in
      if negb found then
        let '(s', e) :=
          LavaError s "validateChainPolicies_spec_not_found"
            [("specIndex", SpecIndex spec)] "policy's spec not found" in
        (s', Some e)
      else if negb (Enabled spec) then
        let '(s', e) :=
          LavaError s "validateChainPolicies_spec_not_enabled"
            [("specIndex", SpecIndex spec)] "policy's spec not enabled" in
        (s', Some e)
      else
        let '(s1, err) := policyApis_loop s spec (Apis chainPolicy) in
        match err with
        | Some e => (s1, Some e)
        | None => chainPolicies_loop s1 rest
        end
  end.

Definition ValidateChainPolicies (s : State) (policy : Policy)
    : State * option error :=
  chainPolicies_loop s (ChainPolicies policy).

(** ** Notions the properties are stated with *)

(** The sink received exactly one more record, and the error handed to the
    caller is that record. *)
Definition reported (s s' : State) (e : error) : Prop :=
  exists r : Report, logger s' = (logger s ++ [r])%list /\ e = error_of_report r.

(** Nothing but the logger differs between the two states. *)
Definition same_stores (s s' : State) : Prop :=
  projectsFS s' = projectsFS s /\
  developerKeysFS s' = developerKeysFS s /\
  specKeeper s' = specKeeper s /\
  BlockHeight s' = BlockHeight s.

(** The record a lookup found, if it found one: no error and [found]. *)
Definition finds {T : Type} (r : option error * bool * T) : option T :=
  match r with
  | (None, true, v) => Some v
  | _ => None
  end.

(** A chain policy passes validation against a registry: its spec is
    present and enabled, and every API name it declares is the name of one
    of the spec's APIs. *)
Definition chainPolicy_valid (registry : string -> Spec * bool)
    (chainPolicy : ChainPolicy) : Prop :=
  exists spec : Spec,
    registry (ChainId chainPolicy) = (spec, true) /\
    Enabled spec = true /\
    forall policyApi, In policyApi (Apis chainPolicy) ->
                      In policyApi (map Name (SpecApis spec)).

(** What a call that only reads may do to the state: the stores, the registry
    and the block height stay, nothing at all changes when the call returns
    no error, and a failing call adds at most one record to the logger. *)
Definition read_only_effect (s s' : State) (err : option error) : Prop :=
  same_stores s s' /\
  match err with
  | None => s' = s
  | Some _ =>
      s' = s \/ exists r : Report, s' = set_logger s (logger s ++ [r])%list
  end.

(** The error [ValidateChainPolicies] raises for a chain policy that does
    not pass against a registry: its spec is missing, or is there but
    disabled, or is enabled and [policyApi] is the first API name of the
    chain policy that none of the spec's APIs carries. *)
Definition chainPolicy_violation (registry : string -> Spec * bool)
    (chainPolicy : ChainPolicy) (e : error) : Prop :=
  exists (spec : Spec) (found : bool),
    registry (ChainId chainPolicy) = (spec, found) /\
    ((found = false /\
      e = LavaErr "validateChainPolicies_spec_not_found"
            [("specIndex", SpecIndex spec)] "policy's spec not found") \/
     (found = true /\ Enabled spec = false /\
      e = LavaErr "validateChainPolicies_spec_not_enabled"
            [("specIndex", SpecIndex spec)] "policy's spec not enabled") \/
     (found = true /\ Enabled spec = true /\
      exists listed policyApi others,
        Apis chainPolicy = (listed ++ policyApi :: others)%list /\
        (forall a, In a listed -> In a (map Name (SpecApis spec))) /\
        ~ In policyApi (map Name (SpecApis spec)) /\
        e = LavaErr "validateChainPolicies_chain_policy_api_not_found"
              [("specIndex", SpecIndex spec); ("API", policyApi)]
              "policy's spec's API not found")).

End Keeper.

(** ** A fixation store modelled from the spec *)

Module SpecStore.

(** Modelled from the spec: [common.FixationStore] is declared outside the
    files embedded here.  A store persists, per index, the list of its
    versions (version height, payload, optional tombstone height, reference
    count); the list is kept newest first, so its head carries the latest
    version height.  [io_fault] says that the substrate fails to serve
    reads, the one way in which [FindEntry] fails. *)
Record Version (T : Type) : Type := mkVersion {
  version_height : Z;
  payload : T;
  tombstone_height : option Z;
  ref_count : nat
}.

Arguments mkVersion {T}.
Arguments version_height {T}.
Arguments payload {T}.
Arguments tombstone_height {T}.
Arguments ref_count {T}.

Record Store (T : Type) : Type := mkStore {
  entries : gmap string (list (Version T));
  io_fault : bool
}.

Arguments mkStore {T}.
Arguments entries {T}.
Arguments io_fault {T}.

Definition empty {T : Type} : Store T := mkStore ∅ false.

(** A version serves height [h]: it was written at or before [h] and its
    tombstone, if any, is above [h]. *)
Definition visible_at {T : Type} (h : Z) (v : Version T) : bool :=
  (version_height v <=? h) &&
  match tombstone_height v with
  | None => true
  | Some t => h <? t
  end.

(** Modelled from the spec: the version with the greatest version height at
    or below [height] among the versions that serve [height]; not found when
    there is none, also when the index was never written.  A read, without
    side effects. *)
Definition FindEntry {T : Type} (fs : Store T) (index : string) (height : Z)
    (out : T) : option error * bool * T :=
  if io_fault fs then (Some (StoreErr StorageFaultError), false, out)
  else
    match entries fs !! index with
    | None => (None, false, out)
    | Some versions =>
        match find (visible_at height) versions with
        | Some v => (None, true, payload v)
        | None => (None, false, out)
        end
    end.

(** Modelled from the spec: an append needs a height above the latest
    version height of the index; at the same height it is rejected with
    [DuplicateVersionError].  It installs a new latest version and leaves
    the older versions as they are.  The spec names no error for a height
    below the latest one; the model rejects that call with
    [StaleHeightError]. *)
Definition AppendEntry {T : Type} (fs : Store T) (index : string) (height : Z)
    (entry : T) : Store T * option error :=
  let fresh := mkVersion height entry None 0%nat in
  match entries fs !! index with
  | None | Some [] =>
      (mkStore (<[index := [fresh]]> (entries fs)) (io_fault fs), None)
  | Some (latest :: older) =>
      if height =? version_height latest then
        (fs, Some (StoreErr DuplicateVersionError))
      else if height <? version_height latest then
        (fs, Some (StoreErr StaleHeightError))
      else
        (mkStore (<[index := fresh :: latest :: older]> (entries fs))
           (io_fault fs), None)
  end.

(** Modelled from the spec: a modification needs an existing version of the
    index.  If the latest version was created at [height] its payload is
    overwritten in place; otherwise the call behaves as [AppendEntry]. *)
Definition ModifyEntry {T : Type} (fs : Store T) (index : string) (height : Z)
    (entry : T) : Store T * option error :=
  match entries fs !! index with
  | None | Some [] => (fs, Some (StoreErr NotFoundError))
  | Some (latest :: older) =>
      if version_height latest =? height then
        (mkStore
           (<[index := mkVersion height entry (tombstone_height latest)
                         (ref_count latest) :: older]> (entries fs))
           (io_fault fs), None)
      else AppendEntry fs index height entry
  end.

End SpecStore.

#[export] Instance SpecFS : FixationStoreOps := {|
  FixationStore := SpecStore.Store;
  FindEntry := @SpecStore.FindEntry;
  AppendEntry := @SpecStore.AppendEntry;
  ModifyEntry := @SpecStore.ModifyEntry
|}.

(** ** Concrete states used by the examples *)

Module Scenario.

Definition P1 : Project :=
  mkProject "P1" ["A"] [] 0 (mkPolicy []) (mkPolicy []).

(** A project whose compute-unit counter holds the greatest [uint64]. *)
Definition PF : Project :=
  mkProject "PF" ["A"] [] 18446744073709551615 (mkPolicy []) (mkPolicy []).

(** Projects [P1] and [PF] written at height 10, each with admin key [A]. *)
Definition projects : SpecStore.Store Project :=
  fst (SpecStore.AppendEntry
         (fst (SpecStore.AppendEntry SpecStore.empty "P1" 10 P1)) "PF" 10 PF).

(** Developer key [D2] bound at height 5 to a project that was never
    written, and developer key [D3] bound to [P1] at height 11. *)
Definition developerKeys : SpecStore.Store ProtoDeveloperData :=
  fst (SpecStore.AppendEntry
         (fst (SpecStore.AppendEntry SpecStore.empty "D2" 5
                 (mkProtoDeveloperData "P0" "")))
         "D3" 11 (mkProtoDeveloperData "P1" "vrf3")).

(** A batch whose first key is free and whose second key is taken. *)
Definition batch : list ProjectKey :=
  [mkProjectKey "D1" "vrf1"; mkProjectKey "D2" "vrf2"].

Definition ETH1 : Spec :=
  mkSpec "ETH1" true [mkServiceApi "eth_call"; mkServiceApi "eth_getBalance"].

Definition OLD1 : Spec := mkSpec "OLD1" false [mkServiceApi "eth_call"].

Definition specs (chainID : string) : Spec * bool :=
  if String.eqb chainID "ETH1" then (ETH1, true)
  else if String.eqb chainID "OLD1" then (OLD1, true)
  else (zero_Spec, false).

(** A policy that passes validation. *)
Definition policy_ok : Policy :=
  mkPolicy [mkChainPolicy "ETH1" ["eth_call"]].

(** A policy whose second chain policy declares an API under a name that
    differs from the spec's in letter case only, followed by a chain policy
    for a chain without spec. *)
Definition policy_case : Policy :=
  mkPolicy [mkChainPolicy "ETH1" ["eth_call"];
            mkChainPolicy "ETH1" ["eth_getBalance"; "ETH_CALL"];
            mkChainPolicy "XXX" []].

Definition policy_disabled : Policy :=
  mkPolicy [mkChainPolicy "OLD1" ["eth_call"]].

Definition policy_missing : Policy :=
  mkPolicy [mkChainPolicy "ETH1" ["eth_call"]; mkChainPolicy "XXX" []].

(** The state at block height 12. *)
Definition s12 : State := mkState projects developerKeys specs [] 12.

(** The same state over a substrate whose reads fail. *)
Definition s12_faulty : State :=
  mkState (SpecStore.mkStore (SpecStore.entries projects) true)
          (SpecStore.mkStore (SpecStore.entries developerKeys) true)
          specs [] 12.

(** A project whose two policies differ. *)
Definition P2 : Project :=
  mkProject "P2" ["A"] [] 0 policy_ok policy_disabled.

(** Project [P2] written at height 10 and developer key [D4] bound to it at
    height 11. *)
Definition s12_policies : State :=
  mkState (fst (SpecStore.AppendEntry SpecStore.empty "P2" 10 P2))
          (fst (SpecStore.AppendEntry SpecStore.empty "D4" 11
                  (mkProtoDeveloperData "P2" "vrf4")))
          specs [] 12.

(** The state [s12] with a projects store whose reads fail, over a
    developer-key store that works. *)
Definition s12_projects_faulty : State :=
  mkState (SpecStore.mkStore (SpecStore.entries projects) true)
          developerKeys specs [] 12.

(** Two keys that are free in [s12]. *)
Definition free_batch : list ProjectKey :=
  [mkProjectKey "D5" "vrf5"; mkProjectKey "D6" "vrf6"].

End Scenario.

(** ** The add-genesis-account command *)

Module GenAccounts.

Definition flagVestingStart : string := "vesting-start-time".
Definition flagVestingEnd : string := "vesting-end-time".
Definition flagVestingAmt : string := "vesting-amount".
Definition flagModuleAccount : string := "module-account".
Definition flagPeriodicLength : string := "periodic-length".
Definition flagPeriodicNumber : string := "periodic-number".
Definition flagPeriodicFirst : string := "periodic-first".

(** [flags.FlagKeyringBackend] of the SDK. *)
Definition FlagKeyringBackend : string := "keyring-backend".

(** The value a flag of the command holds after the command line was
    parsed: the default it was registered with, or the value supplied. *)
Inductive FlagValue : Type :=
  | StringValue (s : string)
  | Int64Value (z : Z)
  | BoolValue (b : bool).

(** [cmd.Flags()]: the flag set, by flag name. *)
Abbreviation FlagSet := (gmap string FlagValue).

(** The flags the command registers, with their defaults. *)
Definition registered_flags (defaultNodeHome DefaultKeyringBackend : string)
    : FlagSet :=
  <[FlagKeyringBackend := StringValue DefaultKeyringBackend]>
  (<["home" := StringValue defaultNodeHome]>
  (<[flagVestingAmt := StringValue ""]>
  (<[flagVestingStart := Int64Value 0]>
  (<[flagVestingEnd := Int64Value 0]>
  (<[flagModuleAccount := BoolValue false]>
  (<[flagPeriodicLength := Int64Value 0]>
  (<[flagPeriodicNumber := Int64Value 0]>
  (<[flagPeriodicFirst := StringValue ""]> ∅)))))))).

(** Two flag values are of the same type. *)
Definition same_kind (v v' : FlagValue) : bool :=
  match v, v' with
  | StringValue _, StringValue _ => true
  | Int64Value _, Int64Value _ => true
  | BoolValue _, BoolValue _ => true
  | _, _ => false
  end.

(** A flag set as parsing leaves it: every flag the command registers is
    there and holds a value of the type it was registered with. *)
Definition well_kinded (f : FlagSet) : Prop :=
  forall name v, registered_flags "" "" !! name = Some v ->
    exists v', f !! name = Some v' /\ same_kind v v' = true.

Section RunE.

(** Types and functions of the Cosmos SDK that the command calls. *)
Variables (ExtError Coins Int AccAddress PubKey ClientCtx ServerCtx Keyring
           KeyInfo BaseAccount BaseVestingAccount GenesisAccount : Type).

(** The errors [RunE] returns: an error of a callee, a [fmt.Errorf] wrapping
    ([%w]) of one, an [errors.New], and the error of a flag lookup. *)
Inductive cmd_error : Type :=
  | ExtErr (e : ExtError)
  | Wrap (msg : string) (e : cmd_error)
  | ErrorsNew (msg : string)
  | FlagErr (name : string).

Inductive result (A : Type) : Type :=
  | Ok (a : A)
  | Err (e : cmd_error).

Arguments Ok {A}.
Arguments Err {A}.

Definition bind {A B : Type} (c : result A) (k : A -> result B) : result B :=
  match c with
  | Ok a => k a
  | Err e => Err e
  end.

#[local] Instance result_bind : MBind result :=
  fun A B k c => bind c k.

(** [v, err := f(...); if err != nil { return err }] *)
Definition try {A : Type} (r : A * option ExtError) : result A :=
  match snd r with
  | Some e => Err (ExtErr e)
  | None => Ok (fst r)
  end.

(** [v, err := f(...); if err != nil { return fmt.Errorf(msg + ": %w", err) }] *)
Definition try_wrap {A : Type} (msg : string) (r : A * option ExtError)
    : result A :=
  match snd r with
  | Some e => Err (Wrap msg (ExtErr e))
  | None => Ok (fst r)
  end.

Definition GetString (f : FlagSet) (name : string) : result string :=
  match f !! name with
  | Some (StringValue s) => Ok s
  | _ => Err (FlagErr name)
  end.

Definition GetInt64 (f : FlagSet) (name : string) : result Z :=
  match f !! name with
  | Some (Int64Value z) => Ok z
  | _ => Err (FlagErr name)
  end.

Definition GetBool (f : FlagSet) (name : string) : result bool :=
  match f !! name with
  | Some (BoolValue b) => Ok b
  | _ => Err (FlagErr name)
  end.

Variable Error_string : ExtError -> string.
Variable ParseCoinsNormalized : string -> Coins * option ExtError.
Variable Coins_Sort : Coins -> Coins.
Variable Coins_IsZero : Coins -> bool.
Variable Coins_IsAnyGT : Coins -> Coins -> bool.
Variable Coins_Validate : Coins -> option ExtError.
Variable Coins_QuoInt : Coins -> Int -> Coins.
Variable Coins_MulInt : Coins -> Int -> Coins.
Variable Coins_IsEqual : Coins -> Coins -> bool.
Variable Coins_Add : Coins -> Coins -> Coins.
Variable NewInt : Z -> Int.
Variable AccAddressFromBech32 : string -> AccAddress * option ExtError.
Variable AccAddress_String : AccAddress -> string.
Variable keyring_New : string -> ClientCtx -> Keyring * option ExtError.
Variable Keyring_Key : Keyring -> string -> KeyInfo * option ExtError.
Variable KeyInfo_GetAddress : KeyInfo -> AccAddress * option ExtError.
Variable NewBaseAccount : AccAddress -> option PubKey -> Z -> Z -> BaseAccount.
Variable BaseAccount_set_Address : BaseAccount -> string -> BaseAccount.
Variable NewModuleAddress : string -> AccAddress.
Variables Burner Staking : string.
Variable NewModuleAccount : BaseAccount -> string -> list string -> GenesisAccount.
Variable NewBaseVestingAccount : BaseAccount -> Coins -> Z -> BaseVestingAccount.
Variable OriginalVesting : BaseVestingAccount -> Coins.

(** [authvesting.Period] *)
Record Period : Type := mkPeriod {
  Length : Z;
  Amount : Coins
}.

Variable NewPeriodicVestingAccount :
  BaseAccount -> Coins -> Z -> list Period -> GenesisAccount.
Variable NewContinuousVestingAccountRaw : BaseVestingAccount -> Z -> GenesisAccount.
Variable NewDelayedVestingAccountRaw : BaseVestingAccount -> GenesisAccount.
Variable GenesisAccount_of_BaseAccount : BaseAccount -> GenesisAccount.
Variable GenesisAccount_Validate : GenesisAccount -> option ExtError.

(** [banktypes.Balance] *)
Record Balance : Type := mkBalance {
  Address : string;
  BalanceCoins : Coins
}.

(** The rest of [RunE] after the account was validated: the genesis file is
    read, the account and the balance are added and the file is written
    back. *)
Variable writeGenesis :
  ClientCtx -> ServerCtx -> AccAddress -> GenesisAccount -> Balance ->
  option cmd_error.

(** The command as [RunE] receives it: its flag set, and what
    [client.GetClientQueryContext] and [server.GetServerContextFromCmd]
    yield for it. *)
Record Command : Type := mkCommand {
  Flags : FlagSet;
  ClientQueryContext : ClientCtx * option ExtError;
  ServerContext : ServerCtx
}.

Definition set_flag (cmd : Command) (name : string) (v : FlagValue) : Command :=
  mkCommand (<[name := v]> (Flags cmd)) (ClientQueryContext cmd)
            (ServerContext cmd).

(** The vesting parameters [RunE] reads from the flags. *)
Record VestingParams : Type := mkVestingParams {
  vestingStart : Z;
  vestingEnd : Z;
  vestingAmt : Coins;
  periodicLength : Z;
  periodicNumber : Z;
  periodicFirst : Coins
}.

Definition readVestingParams (cmd : Command) : result VestingParams :=
  vestingStart ← GetInt64 (Flags cmd) flagVestingStart;
  vestingEnd ← GetInt64 (Flags cmd) flagVestingEnd;
  vestingAmtStr ← GetString (Flags cmd) flagVestingAmt;
  vestingAmt ← try_wrap "failed to parse vesting amount"
                  (ParseCoinsNormalized vestingAmtStr);
  periodicLength ← GetInt64 (Flags cmd) flagPeriodicLength;
  periodicNumber ← GetInt64 (Flags cmd) flagPeriodicNumber;
  periodicFirstStr ← GetString (Flags cmd) flagVestingAmt;
  periodicFirst ← try_wrap "failed to parse periodicFirst amount"
                     (ParseCoinsNormalized periodicFirstStr);
  Ok (mkVestingParams vestingStart vestingEnd vestingAmt periodicLength
        periodicNumber periodicFirst).

(** The address of the account: [args[0]] as a bech32 address, or looked up
    in the keyring when it is not one and no module account is asked for. *)
Definition resolveAddress (cmd : Command) (clientCtx : ClientCtx)
    (arg0 : string) (createModuleAccount : bool) : result AccAddress :=
  let '(addr, err) := AccAddressFromBech32 arg0 in
  match err with
  | Some _ =>
      if negb createModuleAccount then
        keyringBackend ← GetString (Flags cmd) FlagKeyringBackend;
        kb ← try (keyring_New keyringBackend clientCtx);
        info ← try_wrap "failed to get address from Keybase"
                  (Keyring_Key kb arg0);
        try_wrap "failed to get address from Info" (KeyInfo_GetAddress info)
      else Ok addr
  | None => Ok addr
  end.

(** The periodic case of the [switch]. *)
Definition periodicAccount (baseAccount : BaseAccount) (p : VestingParams)
    : result GenesisAccount :=
  if periodicLength p <=? 0 then
    Err (ErrorsNew "periodic account must set periodicLength flag")
  else if periodicNumber p <=? 0 then
    Err (ErrorsNew "periodic account must set periodicNumber flag")
  else if vestingStart p <=? 0 then
    Err (ErrorsNew "periodic account must have vesting start flag")
  else
    match Coins_Validate (periodicFirst p) with
    | Some err =>
        Err (ErrorsNew ("periodic account must have vesting first emission none negative "
                        ++ Error_string err))
    | None =>
        if negb (Coins_IsEqual
                   (Coins_MulInt
                      (Coins_QuoInt (vestingAmt p) (NewInt (periodicNumber p)))
                      (NewInt (periodicNumber p)))
                   (vestingAmt p)) then
          Err (ErrorsNew "periodic vesting amount must be divisble by the periodicNumber")
        else
          let periods := [mkPeriod 0 (periodicFirst p)] in
          let periods :=
            Z.iter (periodicNumber p)
              (fun periods : list Period =>
                 let period :=
                   mkPeriod (periodicLength p)
                     (Coins_QuoInt (vestingAmt p) (NewInt (periodicNumber p))) in
                 (periods ++ [period])%list)
              periods in
          Ok (NewPeriodicVestingAccount baseAccount
                (Coins_Add (vestingAmt p) (periodicFirst p))
                (vestingStart p) periods)
    end.

(** The concrete account type chosen from the input parameters, with its
    balance. *)
Definition makeAccount (arg0 : string) (addr : AccAddress) (coins : Coins)
    (createModuleAccount : bool) (p : VestingParams)
    : result (GenesisAccount * Balance) :=
  let balances := mkBalance (AccAddress_String addr) (Coins_Sort coins) in
  let baseAccount := NewBaseAccount addr None 0 0 in
  if createModuleAccount then
    let moduleAddress := AccAddress_String (NewModuleAddress arg0) in
    let baseAccount := BaseAccount_set_Address baseAccount moduleAddress in
    let balances := mkBalance moduleAddress (BalanceCoins balances) in
    Ok (NewModuleAccount baseAccount arg0 [Burner; Staking], balances)
  else if negb (Coins_IsZero (vestingAmt p)) then
    let baseVestingAccount :=
      NewBaseVestingAccount baseAccount (Coins_Sort (vestingAmt p))
        (vestingEnd p) in
    if (Coins_IsZero (BalanceCoins balances) &&
        negb (Coins_IsZero (OriginalVesting baseVestingAccount)))
       || Coins_IsAnyGT (OriginalVesting baseVestingAccount)
            (BalanceCoins balances) then
      Err (ErrorsNew "vesting amount cannot be greater than total amount")
    else if negb (periodicLength p =? 0) || negb (periodicNumber p =? 0) then
      genAccount ← periodicAccount baseAccount p;
      Ok (genAccount, balances)
    else if negb (vestingStart p =? 0) && negb (vestingEnd p =? 0) then
      Ok (NewContinuousVestingAccountRaw baseVestingAccount (vestingStart p),
          balances)
    else if negb (vestingEnd p =? 0) then
      Ok (NewDelayedVestingAccountRaw baseVestingAccount, balances)
    else
      Err (ErrorsNew "invalid vesting parameters; must supply start and end time or end time")
  else Ok (GenesisAccount_of_BaseAccount baseAccount, balances).

(** [RunE] up to and including [genAccount.Validate()]: the address, the
    account and the balance the genesis file is extended with. *)
Definition buildAccount (cmd : Command) (arg0 arg1 : string)
    : result (ClientCtx * AccAddress * GenesisAccount * Balance) :=
  clientCtx ← try (ClientQueryContext cmd);
  coins ← try_wrap "failed to parse coins" (ParseCoinsNormalized arg1);
  createModuleAccount ← GetBool (Flags cmd) flagModuleAccount;
  addr ← resolveAddress cmd clientCtx arg0 createModuleAccount;
  p ← readVestingParams cmd;
  acc ← makeAccount arg0 addr coins createModuleAccount p;
  match GenesisAccount_Validate (fst acc) with
  | Some err => Err (Wrap "failed to validate new genesis account" (ExtErr err))
  | None => Ok (clientCtx, addr, fst acc, snd acc)
  end.

(** [RunE]: [None] is Go's [nil] error. *)
Definition RunE (cmd : Command) (arg0 arg1 : string) : option cmd_error :=
  match buildAccount cmd arg0 arg1 with
  | Err e => Some e
  | Ok (clientCtx, addr, genAccount, balances) =>
      writeGenesis clientCtx (ServerContext cmd) addr genAccount balances
  end.

(** A computation that, when it fails, fails with an error outside [bad]. *)
Definition avoids {A : Type} (bad : cmd_error -> Prop) (r : result A) : Prop :=
  forall e, r = Err e -> ~ bad e.

(** The error of the second parse in [readVestingParams]. *)
Definition periodicFirst_parse_error (e : cmd_error) : Prop :=
  exists e', e = Wrap "failed to parse periodicFirst amount" e'.

(** The error of a flag lookup. *)
Definition flag_error (e : cmd_error) : Prop :=
  exists name, e = FlagErr name.

(** ** The periodic-first flag *)

Lemma lookup_set_flag_other (cmd : Command) (name : string) (v : FlagValue) :
  name <> flagPeriodicFirst ->
  Flags (set_flag cmd flagPeriodicFirst v) !! name = Flags cmd !! name.
Proof. intros Hne. cbn. by rewrite lookup_insert_ne. Qed.

Lemma GetString_set_flag_other cmd name v :
  name <> flagPeriodicFirst ->
  GetString (Flags (set_flag cmd flagPeriodicFirst v)) name
    = GetString (Flags cmd) name.
Proof. intros Hne. unfold GetString. by rewrite lookup_set_flag_other. Qed.

Lemma GetInt64_set_flag_other cmd name v :
  name <> flagPeriodicFirst ->
  GetInt64 (Flags (set_flag cmd flagPeriodicFirst v)) name
    = GetInt64 (Flags cmd) name.
Proof. intros Hne. unfold GetInt64. by rewrite lookup_set_flag_other. Qed.

Lemma GetBool_set_flag_other cmd name v :
  name <> flagPeriodicFirst ->
  GetBool (Flags (set_flag cmd flagPeriodicFirst v)) name
    = GetBool (Flags cmd) name.
Proof. intros Hne. unfold GetBool. by rewrite lookup_set_flag_other. Qed.

Lemma readVestingParams_set_flag cmd v :
  readVestingParams (set_flag cmd flagPeriodicFirst v) = readVestingParams cmd.
Proof.
  unfold readVestingParams.
  rewrite !GetInt64_set_flag_other, !GetString_set_flag_other by done.
  reflexivity.
Qed.

Lemma resolveAddress_set_flag cmd v clientCtx arg0 createModuleAccount :
  resolveAddress (set_flag cmd flagPeriodicFirst v) clientCtx arg0
    createModuleAccount
  = resolveAddress cmd clientCtx arg0 createModuleAccount.
Proof.
  unfold resolveAddress.
  by rewrite GetString_set_flag_other.
Qed.

Lemma buildAccount_set_flag cmd v arg0 arg1 :
  buildAccount (set_flag cmd flagPeriodicFirst v) arg0 arg1
    = buildAccount cmd arg0 arg1.
Proof.
  unfold buildAccount.
  change (ClientQueryContext (set_flag cmd flagPeriodicFirst v))
    with (ClientQueryContext cmd).
  destruct (try (ClientQueryContext cmd)) as [clientCtx|e]; [|done].
  cbn [mbind result_bind bind].
  destruct (try_wrap _ (ParseCoinsNormalized arg1)) as [coins|e]; [|done].
  cbn [mbind result_bind bind].
  rewrite GetBool_set_flag_other by done.
  destruct (GetBool (Flags cmd) flagModuleAccount) as [createModuleAccount|e];
    [|done].
  cbn [mbind result_bind bind].
  by rewrite resolveAddress_set_flag, readVestingParams_set_flag.
Qed.

(** C10: the first-emission amount of a periodic vesting account is parsed
    from the string of the vesting-amount flag, and the value of the
    periodic-first flag has no effect: whatever it is set to, the validation
    performed, the account constructed and the outcome of the command are
    the same. *)
Theorem periodic_first_flag_ignored (cmd : Command) (arg0 arg1 : string)
    (v : FlagValue) :
  match readVestingParams cmd with
  | Ok p =>
      exists vestingAmtStr,
        GetString (Flags cmd) flagVestingAmt = Ok vestingAmtStr /\
        periodicFirst p = fst (ParseCoinsNormalized vestingAmtStr)
  | Err _ => True
  end /\
  readVestingParams (set_flag cmd flagPeriodicFirst v) = readVestingParams cmd /\
  buildAccount (set_flag cmd flagPeriodicFirst v) arg0 arg1
    = buildAccount cmd arg0 arg1 /\
  RunE (set_flag cmd flagPeriodicFirst v) arg0 arg1 = RunE cmd arg0 arg1.
Proof.
  split; [|split; [|split]].
  - unfold readVestingParams.
    destruct (GetInt64 (Flags cmd) flagVestingStart) as [vs|e]; [|done].
    destruct (GetInt64 (Flags cmd) flagVestingEnd) as [ve|e]; [|done].
    destruct (GetString (Flags cmd) flagVestingAmt) as [str|e]; [|done].
    cbn [mbind result_bind bind]. unfold try_wrap.
    destruct (ParseCoinsNormalized str) as [coins [e|]] eqn:Hparse; [done|].
    cbn [mbind result_bind bind snd fst].
    destruct (GetInt64 (Flags cmd) flagPeriodicLength) as [pl|e]; [|done].
    destruct (GetInt64 (Flags cmd) flagPeriodicNumber) as [pn|e]; [|done].
    cbn. exists str. by rewrite Hparse.
  - apply readVestingParams_set_flag.
  - apply buildAccount_set_flag.
  - unfold RunE. rewrite buildAccount_set_flag. reflexivity.
Qed.

(** ** Further properties of the command *)

Lemma avoids_bind {A B : Type} bad (c : result A) (k : A -> result B) :
  avoids bad c -> (forall a, c = Ok a -> avoids bad (k a)) ->
  avoids bad (c ≫= k).
Proof.
  intros Hc Hk. destruct c as [a|e]; cbn.
  - by apply Hk.
  - intros e' [= <-]. by apply (Hc e).
Qed.

Lemma avoids_Ok {A : Type} bad (a : A) : avoids bad (Ok a).
Proof. by intros e. Qed.

Lemma avoids_try {A : Type} bad (r : A * option ExtError) :
  (forall e, ~ bad (ExtErr e)) -> avoids bad (try r).
Proof.
  intros Hbad e. unfold try. destruct (snd r); [|done].
  intros [= <-]. apply Hbad.
Qed.

Lemma avoids_try_wrap {A : Type} bad msg (r : A * option ExtError) :
  (forall e, ~ bad (Wrap msg e)) -> avoids bad (try_wrap msg r).
Proof.
  intros Hbad e. unfold try_wrap. destruct (snd r); [|done].
  intros [= <-]. apply Hbad.
Qed.

Lemma periodicAccount_errors baseAccount p e :
  periodicAccount baseAccount p = Err e -> exists msg, e = ErrorsNew msg.
Proof.
  unfold periodicAccount.
  repeat (destruct (_ <=? 0); [intros [= <-]; by eexists|]).
  destruct (Coins_Validate _); [intros [= <-]; by eexists|].
  destruct (negb _); [intros [= <-]; by eexists | done].
Qed.

Lemma makeAccount_errors arg0 addr coins createModuleAccount p e :
  makeAccount arg0 addr coins createModuleAccount p = Err e ->
  exists msg, e = ErrorsNew msg.
Proof.
  unfold makeAccount, mbind, result_bind, bind. intros H.
  repeat case_match; simplify_eq; eauto using periodicAccount_errors.
Qed.

Lemma readVestingParams_avoids_periodicFirst cmd :
  avoids periodicFirst_parse_error (readVestingParams cmd).
Proof.
  intros e. unfold readVestingParams.
  destruct (GetInt64 (Flags cmd) flagVestingStart) as [vs|e0] eqn:H1;
    [|intros [= <-] (e' & He'); revert H1; unfold GetInt64;
      repeat case_match; congruence].
  destruct (GetInt64 (Flags cmd) flagVestingEnd) as [ve|e0] eqn:H2;
    [|intros [= <-] (e' & He'); revert H2; unfold GetInt64;
      repeat case_match; congruence].
  destruct (GetString (Flags cmd) flagVestingAmt) as [str|e0] eqn:H3;
    [|intros [= <-] (e' & He'); revert H3; unfold GetString;
      repeat case_match; congruence].
  cbn [mbind result_bind bind]. unfold try_wrap.
  destruct (ParseCoinsNormalized str) as [coins [e0|]];
    cbn [mbind result_bind bind snd fst];
    [intros [= <-] (e' & He'); discriminate He'|].
  destruct (GetInt64 (Flags cmd) flagPeriodicLength) as [pl|e0] eqn:H4;
    [|intros [= <-] (e' & He'); revert H4; unfold GetInt64;
      repeat case_match; congruence].
  destruct (GetInt64 (Flags cmd) flagPeriodicNumber) as [pn|e0] eqn:H5;
    [|intros [= <-] (e' & He'); revert H5; unfold GetInt64;
      repeat case_match; congruence].
  done.
Qed.

Lemma GetString_avoids_periodicFirst f name :
  avoids periodicFirst_parse_error (GetString f name).
Proof.
  intros e. unfold GetString. repeat case_match; try done;
    intros [= <-] (e' & He'); discriminate He'.
Qed.

Lemma GetBool_avoids_periodicFirst f name :
  avoids periodicFirst_parse_error (GetBool f name).
Proof.
  intros e. unfold GetBool. repeat case_match; try done;
    intros [= <-] (e' & He'); discriminate He'.
Qed.

Lemma resolveAddress_avoids_periodicFirst cmd clientCtx arg0 createModuleAccount :
  avoids periodicFirst_parse_error
    (resolveAddress cmd clientCtx arg0 createModuleAccount).
Proof.
  unfold resolveAddress.
  destruct (AccAddressFromBech32 arg0) as [addr [err|]]; [|apply avoids_Ok].
  destruct (negb createModuleAccount); [|apply avoids_Ok].
  apply avoids_bind; [apply GetString_avoids_periodicFirst|]. intros kb _.
  apply avoids_bind.
  { apply avoids_try. intros e (e' & He'). discriminate He'. }
  intros k _. apply avoids_bind.
  { apply avoids_try_wrap. intros e (e' & He'). discriminate He'. }
  intros info _.
  apply avoids_try_wrap. intros e (e' & He'). discriminate He'.
Qed.

(** X12: the first emission that [RunE] reads is the vesting amount itself,
    and the error of its parse, "failed to parse periodicFirst amount",
    is never returned: the string parsed there has been parsed before, and
    a failure of that parse is reported as a failure of the vesting
    amount. *)
Theorem first_emission_is_vesting_amount (cmd : Command) (arg0 arg1 : string) :
  match readVestingParams cmd with
  | Ok p => periodicFirst p = vestingAmt p
  | Err _ => True
  end /\
  avoids periodicFirst_parse_error (readVestingParams cmd) /\
  avoids periodicFirst_parse_error (buildAccount cmd arg0 arg1).
Proof.
  split; [|split].
  - unfold readVestingParams.
    destruct (GetInt64 (Flags cmd) flagVestingStart) as [vs|e]; [|done].
    destruct (GetInt64 (Flags cmd) flagVestingEnd) as [ve|e]; [|done].
    destruct (GetString (Flags cmd) flagVestingAmt) as [str|e]; [|done].
    cbn [mbind result_bind bind]. unfold try_wrap.
    destruct (ParseCoinsNormalized str) as [coins [e|]]; [done|].
    cbn [mbind result_bind bind snd fst].
    destruct (GetInt64 (Flags cmd) flagPeriodicLength) as [pl|e]; [|done].
    by destruct (GetInt64 (Flags cmd) flagPeriodicNumber) as [pn|e].
  - apply readVestingParams_avoids_periodicFirst.
  - unfold buildAccount.
    apply avoids_bind.
    { apply avoids_try. intros e (e' & He'). discriminate He'. }
    intros clientCtx _. apply avoids_bind.
    { apply avoids_try_wrap. intros e (e' & He'). discriminate He'. }
    intros coins _. apply avoids_bind; [apply GetBool_avoids_periodicFirst|].
    intros createModuleAccount _.
    apply avoids_bind; [apply resolveAddress_avoids_periodicFirst|].
    intros addr _.
    apply avoids_bind; [apply readVestingParams_avoids_periodicFirst|].
    intros p _. apply avoids_bind.
    { intros e He (e' & He'). apply makeAccount_errors in He as (msg & ->).
      discriminate He'. }
    intros acc _ e. destruct (GenesisAccount_Validate _); [|done].
    intros [= <-] (e' & He'). discriminate He'.
Qed.

Lemma iter_append_repeat {A : Type} (x : A) (n : Z) (init : list A) :
  Z.iter n (fun l : list A => (l ++ [x])%list) init
    = (init ++ List.repeat x (Z.to_nat n))%list.
Proof.
  destruct n as [|n|n]; cbn [Z.iter Z.to_nat];
    try (cbn; by rewrite app_nil_r).
  rewrite Pos2Nat.inj_iter.
  change (Z.to_nat (Z.pos n)) with (Pos.to_nat n).
  induction (Pos.to_nat n) as [|k IH]; cbn [nat_rect].
  - cbn. by rewrite app_nil_r.
  - rewrite IH, <- app_assoc. f_equal.
    clear IH. induction k as [|k IHk]; [done|]. cbn. by rewrite IHk.
Qed.

(** X13: the periodic case builds an account exactly when the period length,
    the number of periods and the vesting start are positive, the first
    emission validates and the vesting amount is a multiple of the number
    of periods.  The schedule then has one period of length 0 with the first
    emission followed by [periodicNumber] equal periods, each of the given
    length and with the vesting amount divided by their number; the
    original vesting is the vesting amount plus the first emission. *)
Theorem periodicAccount_success (baseAccount : BaseAccount) (p : VestingParams)
    (acc : GenesisAccount) :
  periodicAccount baseAccount p = Ok acc <->
  0 < periodicLength p /\ 0 < periodicNumber p /\ 0 < vestingStart p /\
  Coins_Validate (periodicFirst p) = None /\
  Coins_IsEqual
    (Coins_MulInt (Coins_QuoInt (vestingAmt p) (NewInt (periodicNumber p)))
       (NewInt (periodicNumber p)))
    (vestingAmt p) = true /\
  acc = NewPeriodicVestingAccount baseAccount
          (Coins_Add (vestingAmt p) (periodicFirst p)) (vestingStart p)
          (mkPeriod 0 (periodicFirst p)
           :: List.repeat
                (mkPeriod (periodicLength p)
                   (Coins_QuoInt (vestingAmt p) (NewInt (periodicNumber p))))
                (Z.to_nat (periodicNumber p))).
Proof.
  unfold periodicAccount.
  destruct (Z.leb_spec (periodicLength p) 0) as [Hl|Hl];
    [split; [done | intros (H & _); lia]|].
  destruct (Z.leb_spec (periodicNumber p) 0) as [Hn|Hn];
    [split; [done | intros (_ & H & _); lia]|].
  destruct (Z.leb_spec (vestingStart p) 0) as [Hs|Hs];
    [split; [done | intros (_ & _ & H & _); lia]|].
  destruct (Coins_Validate (periodicFirst p)) as [err|];
    [split; [done | by intros (_ & _ & _ & H & _)]|].
  destruct (Coins_IsEqual _ _); cbn [negb];
    [|split; [done | by intros (_ & _ & _ & _ & H & _)]].
  rewrite iter_append_repeat. cbn [app].
  split.
  - intros [= <-]. by repeat split.
  - by intros (_ & _ & _ & _ & _ & ->).
Qed.

(** X15: whenever an account is built, the balance recorded for it carries
    the coins of [args[1]], sorted, at the address of the account: the
    module address for a module account, the resolved address otherwise. *)
Theorem makeAccount_balance (arg0 : string) (addr : AccAddress) (coins : Coins)
    (createModuleAccount : bool) (p : VestingParams)
    (genAccount : GenesisAccount) (balances : Balance) :
  makeAccount arg0 addr coins createModuleAccount p = Ok (genAccount, balances) ->
  BalanceCoins balances = Coins_Sort coins /\
  Address balances =
    if createModuleAccount then AccAddress_String (NewModuleAddress arg0)
    else AccAddress_String addr.
Proof.
  unfold makeAccount.
  destruct createModuleAccount; [by intros [= <- <-]|].
  destruct (negb (Coins_IsZero _)); [|by intros [= <- <-]].
  destruct (_ || _); [done|].
  destruct (negb (periodicLength p =? 0) || negb (periodicNumber p =? 0)).
  - destruct (periodicAccount _ p); [|done]. cbn. by intros [= <- <-].
  - destruct (_ && _); [by intros [= <- <-]|].
    destruct (negb _); [by intros [= <- <-] | done].
Qed.

(** X14: when the vesting parameters are not looked at.  For a module
    account the account and the balance are the same whatever the vesting
    parameters are, and the construction never fails.  Without the module
    flag and without a vesting amount (the amount parses to zero coins) the
    account is the plain base account, whatever the vesting times and the
    periodic flags are. *)
Theorem vesting_parameters_not_looked_at (arg0 : string) (addr : AccAddress)
    (coins : Coins) :
  (exists (genAccount : GenesisAccount) (balances : Balance),
     forall p, makeAccount arg0 addr coins true p = Ok (genAccount, balances)) /\
  (forall p,
     Coins_IsZero (vestingAmt p) = true ->
     makeAccount arg0 addr coins false p
       = Ok (GenesisAccount_of_BaseAccount (NewBaseAccount addr None 0 0),
             mkBalance (AccAddress_String addr) (Coins_Sort coins))).
Proof.
  split.
  - by eexists _, _.
  - intros p H. unfold makeAccount. by rewrite H.
Qed.

(** X16: with a vesting amount that is within the balance and neither
    periodic flag set, the vesting times choose the account: a start and an
    end time give a continuous vesting account, an end time alone a delayed
    one, and without an end time the command fails with the
    invalid-parameters error, also when a start time is given. *)
Theorem makeAccount_vesting_times (arg0 : string) (addr : AccAddress)
    (coins : Coins) (p : VestingParams) :
  Coins_IsZero (vestingAmt p) = false ->
  periodicLength p = 0 -> periodicNumber p = 0 ->
  let balances := mkBalance (AccAddress_String addr) (Coins_Sort coins) in
  let baseVestingAccount :=
    NewBaseVestingAccount (NewBaseAccount addr None 0 0)
      (Coins_Sort (vestingAmt p)) (vestingEnd p) in
  (Coins_IsZero (Coins_Sort coins) &&
   negb (Coins_IsZero (OriginalVesting baseVestingAccount)))
  || Coins_IsAnyGT (OriginalVesting baseVestingAccount) (Coins_Sort coins)
    = false ->
  makeAccount arg0 addr coins false p =
    if vestingEnd p =? 0 then
      Err (ErrorsNew "invalid vesting parameters; must supply start and end time or end time")
    else if vestingStart p =? 0 then
      Ok (NewDelayedVestingAccountRaw baseVestingAccount, balances)
    else
      Ok (NewContinuousVestingAccountRaw baseVestingAccount (vestingStart p),
          balances).
Proof.
  intros Hamt Hl Hn. cbn zeta. intros Hcheck. unfold makeAccount.
  rewrite Hamt. cbn [negb BalanceCoins]. rewrite Hcheck, Hl, Hn.
  cbn [Z.eqb negb orb].
  destruct (vestingEnd p =? 0), (vestingStart p =? 0); reflexivity.
Qed.

(** X17: an argument that parses as a bech32 address is the address of the
    account, and the keyring is not consulted; with the module flag the
    lookup never fails and the keyring is not consulted either, whether the
    argument parses or not. *)
Theorem resolveAddress_without_keyring (cmd : Command) (clientCtx : ClientCtx)
    (arg0 : string) (createModuleAccount : bool) :
  (snd (AccAddressFromBech32 arg0) = None ->
   resolveAddress cmd clientCtx arg0 createModuleAccount
     = Ok (fst (AccAddressFromBech32 arg0))) /\
  resolveAddress cmd clientCtx arg0 true = Ok (fst (AccAddressFromBech32 arg0)).
Proof.
  unfold resolveAddress.
  destruct (AccAddressFromBech32 arg0) as [addr [err|]]; cbn; by split.
Qed.

Lemma well_kinded_GetInt64 f name z :
  well_kinded f -> registered_flags "" "" !! name = Some (Int64Value z) ->
  avoids flag_error (GetInt64 f name).
Proof.
  intros Hk Hreg. destruct (Hk _ _ Hreg) as (v' & Hv' & Hkind).
  unfold GetInt64. rewrite Hv'. by destruct v'.
Qed.

Lemma well_kinded_GetString f name str :
  well_kinded f -> registered_flags "" "" !! name = Some (StringValue str) ->
  avoids flag_error (GetString f name).
Proof.
  intros Hk Hreg. destruct (Hk _ _ Hreg) as (v' & Hv' & Hkind).
  unfold GetString. rewrite Hv'. by destruct v'.
Qed.

Lemma well_kinded_GetBool f name b :
  well_kinded f -> registered_flags "" "" !! name = Some (BoolValue b) ->
  avoids flag_error (GetBool f name).
Proof.
  intros Hk Hreg. destruct (Hk _ _ Hreg) as (v' & Hv' & Hkind).
  unfold GetBool. rewrite Hv'. by destruct v'.
Qed.

(** X18: every flag that [RunE] reads is registered by the command under
    the name and with the type it is read with: on a flag set that holds
    each registered flag with a value of its registered type, no flag lookup
    of [RunE] fails. *)
Theorem flags_read_are_registered (cmd : Command) (arg0 arg1 : string) :
  well_kinded (Flags cmd) ->
  avoids flag_error (buildAccount cmd arg0 arg1).
Proof.
  intros Hk. unfold buildAccount.
  apply avoids_bind.
  { apply avoids_try. intros e (n & Hn). discriminate Hn. }
  intros clientCtx _. apply avoids_bind.
  { apply avoids_try_wrap. intros e (n & Hn). discriminate Hn. }
  intros coins _.
  apply avoids_bind; [by eapply well_kinded_GetBool|].
  intros createModuleAccount _. apply avoids_bind.
  { unfold resolveAddress.
    destruct (AccAddressFromBech32 arg0) as [addr [err|]]; [|apply avoids_Ok].
    destruct (negb createModuleAccount); [|apply avoids_Ok].
    apply avoids_bind; [by eapply well_kinded_GetString|]. intros kb _.
    apply avoids_bind.
    { apply avoids_try. intros e (n & Hn). discriminate Hn. }
    intros k _. apply avoids_bind.
    { apply avoids_try_wrap. intros e (n & Hn). discriminate Hn. }
    intros info _.
    apply avoids_try_wrap. intros e (n & Hn). discriminate Hn. }
  intros addr _. apply avoids_bind.
  { unfold readVestingParams.
    apply avoids_bind; [by eapply well_kinded_GetInt64|]. intros vs _.
    apply avoids_bind; [by eapply well_kinded_GetInt64|]. intros ve _.
    apply avoids_bind; [by eapply well_kinded_GetString|]. intros str _.
    apply avoids_bind.
    { apply avoids_try_wrap. intros e (n & Hn). discriminate Hn. }
    intros amt _.
    apply avoids_bind; [by eapply well_kinded_GetInt64|]. intros pl _.
    apply avoids_bind; [by eapply well_kinded_GetInt64|]. intros pn _.
    apply avoids_bind; [by eapply well_kinded_GetString|]. intros str' _.
    apply avoids_bind.
    { apply avoids_try_wrap. intros e (n & Hn). discriminate Hn. }
    intros first _. apply avoids_Ok. }
  intros p _. apply avoids_bind.
  { intros e He (n & Hn). apply makeAccount_errors in He as (msg & ->).
    discriminate Hn. }
  intros acc _ e. destruct (GenesisAccount_Validate _); [|done].
  intros [= <-] (n & Hn). discriminate Hn.
Qed.

End RunE.

End GenAccounts.

(** * Properties of the keeper *)

Section KeeperProperties.

Context `{FS : FixationStoreOps}.

Lemma same_stores_refl s : same_stores s s.
Proof. by repeat split. Qed.

Lemma same_stores_trans s1 s2 s3 :
  same_stores s1 s2 -> same_stores s2 s3 -> same_stores s1 s3.
Proof.
  intros (A1 & A2 & A3 & A4) (B1 & B2 & B3 & B4).
  repeat split; congruence.
Qed.

Lemma LavaError_reported s name attrs description :
  reported s (fst (LavaError s name attrs description))
             (snd (LavaError s name attrs description)).
Proof. by exists (mkReport name attrs description). Qed.

Lemma LavaError_same_stores s name attrs description :
  same_stores s (fst (LavaError s name attrs description)).
Proof. by repeat split. Qed.

Lemma IsAdminKey_In project key :
  IsAdminKey project key = true <-> In key (AdminKeys project).
Proof.
  unfold IsAdminKey. rewrite existsb_exists. split.
  - intros (k & Hin & Heq). apply String.eqb_eq in Heq. by subst.
  - intros Hin. exists key. split; [done | apply String.eqb_refl].
Qed.

Lemma IsAdminKey_not_In project key :
  IsAdminKey project key = false <-> ~ In key (AdminKeys project).
Proof.
  rewrite <- IsAdminKey_In. by destruct (IsAdminKey project key).
Qed.

(** *** Registration touches the developer-key store only *)

Lemma RegisterDeveloperKey_frame s developerKey projectID blockHeight vrfpk :
  let s' := fst (RegisterDeveloperKey s developerKey projectID blockHeight vrfpk) in
  projectsFS s' = projectsFS s /\ specKeeper s' = specKeeper s /\
  BlockHeight s' = BlockHeight s.
Proof.
  unfold RegisterDeveloperKey.
  destruct (FindEntry _ _ _ _) as [[err found] d].
  destruct err as [e|]; [done|].
  destruct found; [done|].
  by destruct (AppendEntry _ _ _ _) as [fs' err'].
Qed.

Lemma AddKeysToProject_loop_frame projectKeys : forall s project,
  let s' := fst (fst (AddKeysToProject_loop s project projectKeys)) in
  projectsFS s' = projectsFS s /\ specKeeper s' = specKeeper s /\
  BlockHeight s' = BlockHeight s.
Proof.
  induction projectKeys as [|projectKey rest IH]; intros s project; [done|].
  cbn [AddKeysToProject_loop].
  pose proof (RegisterDeveloperKey_frame s (Key projectKey) (Index project)
                (uint64_of_int64 (BlockHeight s)) (Vrfpk projectKey)) as Hreg.
  destruct (RegisterDeveloperKey _ _ _ _ _) as [s1 err].
  cbn [fst] in Hreg. destruct Hreg as (H1 & H2 & H3).
  destruct err as [e|]; [done|].
  specialize (IH s1 (AppendKey project projectKey)).
  cbn zeta in IH. destruct IH as (I1 & I2 & I3).
  cbn zeta. repeat split; congruence.
Qed.

(** The loop stops at the first key whose registration fails: the keys
    before it were all registered, one after the other. *)
Lemma AddKeysToProject_loop_failure projectKeys : forall s project s1 project1 e,
  AddKeysToProject_loop s project projectKeys = (s1, project1, Some e) ->
  exists registered failing rest s_mid,
    projectKeys = (registered ++ failing :: rest)%list /\
    AddKeysToProject_loop s project registered = (s_mid, project1, None) /\
    project1 = fold_left AppendKey registered project /\
    RegisterDeveloperKey s_mid (Key failing) (Index project1)
      (uint64_of_int64 (BlockHeight s_mid)) (Vrfpk failing) = (s1, Some e).
Proof.
  induction projectKeys as [|projectKey rest IH]; intros s project s1 project1 e;
    cbn [AddKeysToProject_loop]; [done|].
  destruct (RegisterDeveloperKey _ _ _ _ _) as [s' err] eqn:Hreg.
  destruct err as [e'|].
  - intros [= -> -> ->].
    exists [], projectKey, rest, s. by repeat split.
  - intros Hloop. apply IH in Hloop as (reg & failing & rest' & s_mid & -> & Hpre & Hfold & Hfail).
    exists (projectKey :: reg), failing, rest', s_mid. repeat split; try done.
    cbn [AddKeysToProject_loop]. by rewrite Hreg.
Qed.

(** *** The API scan is a membership test *)

Lemma foundApi_loop_true apis policyApi :
  foundApi_loop apis policyApi true = true.
Proof.
  induction apis as [|api rest IH]; [done|].
  cbn [foundApi_loop]. by destruct (String.eqb _ _).
Qed.

Lemma foundApi_loop_In apis policyApi :
  foundApi_loop apis policyApi false = true <-> In policyApi (map Name apis).
Proof.
  induction apis as [|api rest IH]; cbn [foundApi_loop map In]; [done|].
  destruct (String.eqb (Name api) policyApi) eqn:Heq.
  - apply String.eqb_eq in Heq. rewrite foundApi_loop_true. by intuition.
  - apply String.eqb_neq in Heq. rewrite IH. by intuition.
Qed.

Lemma policyApis_loop_same_stores spec policyApis : forall s,
  same_stores s (fst (policyApis_loop s spec policyApis)).
Proof.
  induction policyApis as [|policyApi rest IH]; intros s;
    cbn [policyApis_loop]; [apply same_stores_refl|].
  destruct (negb _); [apply LavaError_same_stores | apply IH].
Qed.

Lemma chainPolicies_loop_same_stores chainPolicies : forall s,
  same_stores s (fst (chainPolicies_loop s chainPolicies)).
Proof.
  induction chainPolicies as [|chainPolicy rest IH]; intros s;
    cbn [chainPolicies_loop]; [apply same_stores_refl|].
  destruct (specKeeper s (ChainId chainPolicy)) as [spec found].
  destruct (negb found); [apply LavaError_same_stores|].
  destruct (negb (Enabled spec)); [apply LavaError_same_stores|].
  pose proof (policyApis_loop_same_stores spec (Apis chainPolicy) s) as Hs.
  destruct (policyApis_loop s spec (Apis chainPolicy)) as [s1 err].
  cbn [fst] in Hs. destruct err as [e|]; [done|].
  eapply same_stores_trans; [exact Hs | apply IH].
Qed.

(** *** Claims about the entity registry *)

(** C7: for every [cu], [AddComputeUnitsToProject] called with a nil project
    reference fails with the nil-project error and writes nothing: the
    projects store, and every other part of the state but the logger, is as
    before the call. *)
Theorem AddComputeUnitsToProject_nil_project (s : State) (cu : Z) :
  let r := AddComputeUnitsToProject s None cu in
  snd r = Some (LavaErr "AddComputeUnitsToProject_project_nil" []
                        "project is nil") /\
  snd (fst r) = None /\
  projectsFS (fst (fst r)) = projectsFS s /\
  same_stores s (fst (fst r)).
Proof. cbn. repeat split. Qed.

(** C4: when the project exists at the current height and [adminKey] is not
    among its admin keys, [AddKeysToProject] fails with the not-admin
    (authorization) error, registers no developer key and writes no project
    version: both stores are as before the call. *)
Theorem AddKeysToProject_not_admin (s : State) (projectID adminKey : string)
    (projectKeys : list ProjectKey) (project : Project) :
  FindEntry (projectsFS s) projectID (uint64_of_int64 (BlockHeight s))
    zero_Project = (None, true, project) ->
  ~ In adminKey (AdminKeys project) ->
  let r := AddKeysToProject s projectID adminKey projectKeys in
  snd r = Some (LavaErr "AddProjectKeys_not_admin" [("project", projectID)]
                        "the requesting key is not admin key") /\
  developerKeysFS (fst r) = developerKeysFS s /\
  projectsFS (fst r) = projectsFS s.
Proof.
  intros Hfind Hadmin. apply IsAdminKey_not_In in Hadmin.
  unfold AddKeysToProject. rewrite Hfind. cbn [not_nil negb orb].
  rewrite Hadmin. cbn. repeat split.
Qed.

(** C9: when the project exists at the current height and [adminKey] is
    among its admin keys, [AddKeysToProject] with an empty key list leaves
    the developer-key store as it is and still calls [AppendEntry] on the
    projects store with the project as it was found, at the current block
    height; the outcome of the call is the outcome of that append. *)
Theorem AddKeysToProject_no_keys (s : State) (projectID adminKey : string)
    (project : Project) :
  FindEntry (projectsFS s) projectID (uint64_of_int64 (BlockHeight s))
    zero_Project = (None, true, project) ->
  In adminKey (AdminKeys project) ->
  let r := AddKeysToProject s projectID adminKey [] in
  let written :=
    AppendEntry (projectsFS s) projectID (uint64_of_int64 (BlockHeight s))
      project in
  projectsFS (fst r) = fst written /\
  snd r = snd written /\
  developerKeysFS (fst r) = developerKeysFS s /\
  logger (fst r) = logger s.
Proof.
  intros Hfind Hadmin. apply IsAdminKey_In in Hadmin.
  unfold AddKeysToProject. rewrite Hfind. cbn [not_nil negb orb].
  rewrite Hadmin. cbn [negb AddKeysToProject_loop].
  destruct (AppendEntry _ _ _ _) as [fs' err]. cbn. repeat split.
Qed.

(** C8: [GetProjectForBlock] and [GetProjectDeveloperData] return the same
    error whether [FindEntry] reports an error of its own or reports the
    entry absent: a storage fault reaches the caller as the plain not-found
    error of the lookup. *)
Theorem lookup_fault_reads_as_not_found (s_fault s_absent : State)
    (index : string) (blockHeight : Z) :
  (forall (e : error) (f : bool) (p p' : Project),
     FindEntry (projectsFS s_fault) index blockHeight zero_Project
       = (Some e, f, p) ->
     FindEntry (projectsFS s_absent) index blockHeight zero_Project
       = (None, false, p') ->
     snd (snd (GetProjectForBlock s_fault index blockHeight))
       = snd (snd (GetProjectForBlock s_absent index blockHeight)) /\
     snd (snd (GetProjectForBlock s_fault index blockHeight))
       = Some (LavaErr "GetProjectForBlock_not_found"
                 [("project", index); ("blockHeight", FormatUint blockHeight)]
                 "project not found")) /\
  (forall (e : error) (f : bool) (d d' : ProtoDeveloperData),
     FindEntry (developerKeysFS s_fault) index blockHeight
       zero_ProtoDeveloperData = (Some e, f, d) ->
     FindEntry (developerKeysFS s_absent) index blockHeight
       zero_ProtoDeveloperData = (None, false, d') ->
     snd (GetProjectDeveloperData s_fault index blockHeight)
       = snd (GetProjectDeveloperData s_absent index blockHeight) /\
     snd (snd (GetProjectDeveloperData s_fault index blockHeight))
       = Some (Errorf ("GetProjectIDForDeveloper_invalid_key, the requesting key is not registered to a project, developer: " ++ index))).
Proof.
  split.
  - intros e f p p' Hfault Habsent. unfold GetProjectForBlock.
    rewrite Hfault, Habsent. cbn. by split.
  - intros e f d d' Hfault Habsent. unfold GetProjectDeveloperData.
    rewrite Hfault, Habsent. cbn. by split.
Qed.

Lemma finds_Some {T : Type} (r : option error * bool * T) (v : T) :
  finds r = Some v <-> r = (None, true, v).
Proof.
  destruct r as [[[e|] [|]] v']; cbn; split; intros H; try done;
    by inversion H.
Qed.

(** C5, as the keeper has it: [GetProjectForDeveloper] resolves in two
    hops, the developer-key record at the height and then the project named
    in it at the same height.  It succeeds, with that project and the key's
    vrf key, exactly when both hops find their record; it fails with the
    not-registered error when the first hop finds none, and with the
    project-not-found error when the second hop reports the project absent.
    An error of the store on the second hop is no not-found error: it is
    returned to the caller as it is, with an empty vrf key, and the state is
    as before the call. *)
Theorem GetProjectForDeveloper_two_hops (s : State) (developerKey : string)
    (blockHeight : Z) :
  let hop1 :=
    FindEntry (developerKeysFS s) developerKey blockHeight
      zero_ProtoDeveloperData in
  let hop2 := fun d : ProtoDeveloperData =>
    FindEntry (projectsFS s) (ProjectID d) blockHeight zero_Project in
  let r := GetProjectForDeveloper s developerKey blockHeight in
  (forall d p, finds hop1 = Some d -> finds (hop2 d) = Some p ->
     r = (s, (p, DevVrfpk d, None))) /\
  (snd (snd r) = None ->
     exists d p, finds hop1 = Some d /\ finds (hop2 d) = Some p) /\
  (finds hop1 = None ->
     snd (snd r) = Some (Errorf ("GetProjectIDForDeveloper_invalid_key, the requesting key is not registered to a project, developer: " ++ developerKey))) /\
  (forall d p, finds hop1 = Some d -> hop2 d = (None, false, p) ->
     snd (snd r) = Some (LavaErr "GetProjectForDeveloper_project_not_found"
                           [("developer", developerKey);
                            ("project", ProjectID d)]
                           "the developers project was not found")) /\
  (forall d e f p, finds hop1 = Some d -> hop2 d = (Some e, f, p) ->
     r = (s, (p, "", Some e))).
Proof.
  cbn zeta. unfold GetProjectForDeveloper, GetProjectDeveloperData.
  destruct (FindEntry (developerKeysFS s) _ _ _) as [[err1 found1] d1] eqn:H1.
  split; [|split; [|split; [|split]]].
  - intros d p Hd Hp. apply finds_Some in Hd. inversion Hd; subst.
    apply finds_Some in Hp. cbn. by rewrite Hp.
  - destruct err1 as [e|]; [done|]. destruct found1; [|done]. cbn.
    destruct (FindEntry (projectsFS s) _ _ _) as [[err2 found2] p2] eqn:H2.
    destruct err2 as [e|]; [done|]. destruct found2; [|done].
    intros _. exists d1, p2. rewrite H2. by split.
  - destruct err1 as [e|]; [done|]. by destruct found1.
  - intros d p Hd Hp. apply finds_Some in Hd. inversion Hd; subst.
    cbn. by rewrite Hp.
  - intros d e f p Hd Hp. apply finds_Some in Hd. inversion Hd; subst.
    cbn. by rewrite Hp.
Qed.

(** *** Claims about the policy validator *)

Lemma policyApis_loop_pass s spec policyApis :
  (forall policyApi, In policyApi policyApis ->
                     In policyApi (map Name (SpecApis spec))) ->
  policyApis_loop s spec policyApis = (s, None).
Proof.
  induction policyApis as [|policyApi rest IH]; intros Hall;
    cbn [policyApis_loop]; [done|].
  assert (foundApi_loop (SpecApis spec) policyApi false = true) as ->.
  { apply foundApi_loop_In, Hall. by left. }
  cbn [negb]. apply IH. intros a Ha. apply Hall. by right.
Qed.

Lemma policyApis_loop_first_missing s spec passed policyApi rest :
  (forall a, In a passed -> In a (map Name (SpecApis spec))) ->
  ~ In policyApi (map Name (SpecApis spec)) ->
  policyApis_loop s spec (passed ++ policyApi :: rest) =
    let r :=
      LavaError s "validateChainPolicies_chain_policy_api_not_found"
        [("specIndex", SpecIndex spec); ("API", policyApi)]
        "policy's spec's API not found" in
    (fst r, Some (snd r)).
Proof.
  induction passed as [|a passed IH]; intros Hall Hmiss; cbn [app policyApis_loop].
  - destruct (foundApi_loop (SpecApis spec) policyApi false) eqn:Hf; [|done].
    apply foundApi_loop_In in Hf. by destruct Hmiss.
  - assert (foundApi_loop (SpecApis spec) a false = true) as ->.
    { apply foundApi_loop_In, Hall. by left. }
    cbn [negb]. apply IH; [|done]. intros b Hb. apply Hall. by right.
Qed.

Lemma chainPolicies_loop_skip_valid s passed rest :
  Forall (chainPolicy_valid (specKeeper s)) passed ->
  chainPolicies_loop s (passed ++ rest) = chainPolicies_loop s rest.
Proof.
  induction 1 as [|cp passed (spec & Hspec & Hen & Hapis) _ IH]; [done|].
  cbn [app chainPolicies_loop]. rewrite Hspec, Hen. cbn [negb].
  by rewrite (policyApis_loop_pass s spec (Apis cp) Hapis).
Qed.

(** The validator either returns [nil] and the state it was given, or
    returns the error of one [LavaError] call made on that state. *)
Lemma policyApis_loop_outcome spec policyApis s :
  policyApis_loop s spec policyApis = (s, None) \/
  exists name attrs description,
    policyApis_loop s spec policyApis =
      (fst (LavaError s name attrs description),
       Some (snd (LavaError s name attrs description))).
Proof.
  induction policyApis as [|policyApi rest IH]; cbn [policyApis_loop];
    [by left|].
  destruct (negb _); [|done]. right. by eexists _, _, _.
Qed.

Lemma chainPolicies_loop_outcome chainPolicies s :
  chainPolicies_loop s chainPolicies = (s, None) \/
  exists name attrs description,
    chainPolicies_loop s chainPolicies =
      (fst (LavaError s name attrs description),
       Some (snd (LavaError s name attrs description))).
Proof.
  induction chainPolicies as [|chainPolicy rest IH];
    cbn [chainPolicies_loop]; [by left|].
  destruct (specKeeper s (ChainId chainPolicy)) as [spec found].
  destruct (negb found); [right; by eexists _, _, _|].
  destruct (negb (Enabled spec)); [right; by eexists _, _, _|].
  destruct (policyApis_loop_outcome spec (Apis chainPolicy) s)
    as [-> | (name & attrs & d & ->)]; [done|].
  right. by eexists _, _, _.
Qed.

(** C6: [ValidateChainPolicies] performs no writes and returns [nil] when
    every chain policy is valid.  It stops at the first chain policy that is
    not: with the spec-not-found error when the registry has no spec for its
    chain, with the spec-not-enabled error when the spec is there but
    disabled, and with the API-not-found error for the first declared API
    name that is not, as the very same string, the name of one of the
    spec's APIs. *)
Theorem ValidateChainPolicies_first_violation (s : State) (policy : Policy) :
  let r := ValidateChainPolicies s policy in
  same_stores s (fst r) /\
  (Forall (chainPolicy_valid (specKeeper s)) (ChainPolicies policy) ->
     r = (s, None)) /\
  (forall passed chainPolicy rest spec,
     ChainPolicies policy = (passed ++ chainPolicy :: rest)%list ->
     Forall (chainPolicy_valid (specKeeper s)) passed ->
     (specKeeper s (ChainId chainPolicy) = (spec, false) ->
        snd r = Some (LavaErr "validateChainPolicies_spec_not_found"
                        [("specIndex", SpecIndex spec)]
                        "policy's spec not found")) /\
     (specKeeper s (ChainId chainPolicy) = (spec, true) ->
      Enabled spec = false ->
        snd r = Some (LavaErr "validateChainPolicies_spec_not_enabled"
                        [("specIndex", SpecIndex spec)]
                        "policy's spec not enabled")) /\
     (forall listed policyApi others,
        specKeeper s (ChainId chainPolicy) = (spec, true) ->
        Enabled spec = true ->
        Apis chainPolicy = (listed ++ policyApi :: others)%list ->
        (forall a, In a listed -> In a (map Name (SpecApis spec))) ->
        ~ In policyApi (map Name (SpecApis spec)) ->
        snd r = Some (LavaErr "validateChainPolicies_chain_policy_api_not_found"
                        [("specIndex", SpecIndex spec); ("API", policyApi)]
                        "policy's spec's API not found"))).
Proof.
  cbn zeta. unfold ValidateChainPolicies. split; [|split].
  - apply chainPolicies_loop_same_stores.
  - intros Hall.
    rewrite <- (app_nil_r (ChainPolicies policy)).
    by rewrite chainPolicies_loop_skip_valid.
  - intros passed chainPolicy rest spec -> Hpassed.
    rewrite chainPolicies_loop_skip_valid by done.
    cbn [chainPolicies_loop]. repeat split.
    + by intros ->.
    + intros -> Hen. cbn [negb]. by rewrite Hen.
    + intros listed policyApi others -> Hen -> Hlisted Hmiss.
      cbn [negb]. rewrite Hen. cbn [negb].
      by rewrite policyApis_loop_first_missing.
Qed.

(** *** Claims the keeper departs from *)

(** For any store: when the registration of a key of the batch fails,
    [AddKeysToProject] returns that error and writes no project version, so
    the projects store is as before the call; the keys before the failing
    one have been registered one after the other, and the developer-key
    store is returned as those registrations and the failed attempt left
    it. *)
Lemma AddKeysToProject_registration_failure (s : State)
    (projectID adminKey : string) (projectKeys : list ProjectKey)
    (project : Project) (s1 : State) (project1 : Project) (e : error) :
  FindEntry (projectsFS s) projectID (uint64_of_int64 (BlockHeight s))
    zero_Project = (None, true, project) ->
  In adminKey (AdminKeys project) ->
  AddKeysToProject_loop s project projectKeys = (s1, project1, Some e) ->
  AddKeysToProject s projectID adminKey projectKeys = (s1, Some e) /\
  projectsFS s1 = projectsFS s /\
  exists registered failing rest s_mid,
    projectKeys = (registered ++ failing :: rest)%list /\
    AddKeysToProject_loop s project registered = (s_mid, project1, None) /\
    RegisterDeveloperKey s_mid (Key failing) (Index project1)
      (uint64_of_int64 (BlockHeight s_mid)) (Vrfpk failing) = (s1, Some e).
Proof.
  intros Hfind Hadmin Hloop. apply IsAdminKey_In in Hadmin.
  repeat split.
  - unfold AddKeysToProject. rewrite Hfind. cbn [not_nil negb orb].
    rewrite Hadmin. cbn [negb]. by rewrite Hloop.
  - pose proof (AddKeysToProject_loop_frame projectKeys s project) as Hframe.
    rewrite Hloop in Hframe. by destruct Hframe.
  - apply AddKeysToProject_loop_failure in Hloop
      as (reg & failing & rest & s_mid & -> & Hpre & _ & Hfail).
    by exists reg, failing, rest, s_mid.
Qed.

Lemma uint64_add_cases (a b : Z) :
  in_uint64 a -> in_uint64 b ->
  uint64_add a b =
    if a + b <? uint64_modulus then a + b else a + b - uint64_modulus.
Proof.
  unfold in_uint64, uint64_add, wrap64. intros Ha Hb.
  assert (0 < uint64_modulus) by done.
  destruct (Z.ltb_spec (a + b) uint64_modulus).
  - apply Z.mod_small. lia.
  - symmetry. apply (Z.mod_unique_pos _ _ 1); lia.
Qed.

(** C2, as the keeper has it: [AddComputeUnitsToProject] adds [cu] to
    [UsedCu] as a machine addition on [uint64], without a guard (the sum
    when it fits, the sum less 2^64 when it does not), and hands the project
    to [ModifyEntry] at the current block height; the outcome of the call is
    the outcome of that write. *)
Theorem AddComputeUnitsToProject_machine_add (s : State) (p : Project) (cu : Z) :
  in_uint64 (UsedCu p) -> in_uint64 cu ->
  let r := AddComputeUnitsToProject s (Some p) cu in
  let p' :=
    set_UsedCu p (if UsedCu p + cu <? uint64_modulus then UsedCu p + cu
                  else UsedCu p + cu - uint64_modulus) in
  let written :=
    ModifyEntry (projectsFS s) (Index p) (uint64_of_int64 (BlockHeight s)) p' in
  snd (fst r) = Some p' /\
  projectsFS (fst (fst r)) = fst written /\
  snd r = snd written /\
  developerKeysFS (fst (fst r)) = developerKeysFS s /\
  logger (fst (fst r)) = logger s.
Proof.
  intros Hp Hcu. cbn zeta. unfold AddComputeUnitsToProject.
  rewrite (uint64_add_cases _ _ Hp Hcu). cbn [set_UsedCu Index].
  destruct (ModifyEntry _ _ _ _) as [fs' err]. cbn. repeat split.
Qed.

(** C3, as the keeper has it: every failure that the keeper raises through
    [utils.LavaError] (project not found in [GetProjectForBlock] and in
    [AddKeysToProject], the not-admin failure, the project-not-found failure
    of [GetProjectForDeveloper], the nil project of
    [AddComputeUnitsToProject] and every failure of [ValidateChainPolicies])
    is handed to the sink as one record and returned to the caller; the
    developer-key lookup failure of [GetProjectDeveloperData] is returned as
    a plain formatted error and the sink is left as it was. *)
Theorem failures_reported_to_sink (s : State) :
  (forall projectID blockHeight e,
     snd (snd (GetProjectForBlock s projectID blockHeight)) = Some e ->
     reported s (fst (GetProjectForBlock s projectID blockHeight)) e) /\
  (forall projectID adminKey projectKeys,
     let r := AddKeysToProject s projectID adminKey projectKeys in
     let found :=
       finds (FindEntry (projectsFS s) projectID
                (uint64_of_int64 (BlockHeight s)) zero_Project) in
     (found = None \/
      exists project, found = Some project /\ ~ In adminKey (AdminKeys project)) ->
     exists e, snd r = Some e /\ reported s (fst r) e) /\
  (forall developerKey blockHeight d p,
     let r := GetProjectForDeveloper s developerKey blockHeight in
     finds (FindEntry (developerKeysFS s) developerKey blockHeight
              zero_ProtoDeveloperData) = Some d ->
     FindEntry (projectsFS s) (ProjectID d) blockHeight zero_Project
       = (None, false, p) ->
     exists e, snd (snd r) = Some e /\ reported s (fst r) e) /\
  (forall cu,
     let r := AddComputeUnitsToProject s None cu in
     exists e, snd r = Some e /\ reported s (fst (fst r)) e) /\
  (forall policy e,
     snd (ValidateChainPolicies s policy) = Some e ->
     reported s (fst (ValidateChainPolicies s policy)) e) /\
  (forall developerKey blockHeight e,
     let r := GetProjectDeveloperData s developerKey blockHeight in
     snd (snd r) = Some e ->
     fst r = s /\
     e = Errorf ("GetProjectIDForDeveloper_invalid_key, the requesting key is not registered to a project, developer: " ++ developerKey)).
Proof.
  repeat apply conj.
  - intros projectID blockHeight e. unfold GetProjectForBlock.
    destruct (FindEntry _ _ _ _) as [[err found] project].
    destruct (not_nil err || negb found); [|done].
    cbn. intros [= <-]. by eexists.
  - intros projectID adminKey projectKeys. cbn zeta. unfold AddKeysToProject.
    destruct (FindEntry _ _ _ _) as [[err found] project].
    intros [Hnone | (project' & Hsome & Hadmin)].
    + assert (not_nil err || negb found = true) as ->.
      { by destruct err, found. }
      cbn. eexists. split; [done|]. by eexists.
    + apply finds_Some in Hsome. inversion Hsome; subst.
      apply IsAdminKey_not_In in Hadmin. cbn [not_nil negb orb].
      rewrite Hadmin. cbn. eexists. split; [done|]. by eexists.
  - intros developerKey blockHeight d p. cbn zeta.
    intros Hd Hp. apply finds_Some in Hd.
    unfold GetProjectForDeveloper, GetProjectDeveloperData.
    rewrite Hd. cbn. rewrite Hp. cbn. eexists. split; [done|]. by eexists.
  - intros cu. cbn. eexists. split; [done|]. by eexists.
  - intros policy e. unfold ValidateChainPolicies.
    destruct (chainPolicies_loop_outcome (ChainPolicies policy) s)
      as [-> | (name & attrs & d & ->)]; [done|].
    cbn. intros [= <-]. by eexists.
  - intros developerKey blockHeight e. cbn zeta.
    unfold GetProjectDeveloperData.
    destruct (FindEntry _ _ _ _) as [[err found] d].
    destruct (not_nil err || negb found); [|done].
    cbn. by intros [= <-].
Qed.

End KeeperProperties.

(** * The claims on concrete states *)

Lemma AddKeysToProject_not_admin_witness :
  snd (AddKeysToProject Scenario.s12 "P1" "B" Scenario.batch)
    = Some (LavaErr "AddProjectKeys_not_admin" [("project", "P1")]
                    "the requesting key is not admin key") /\
  developerKeysFS (fst (AddKeysToProject Scenario.s12 "P1" "B" Scenario.batch))
    = developerKeysFS Scenario.s12 /\
  projectsFS (fst (AddKeysToProject Scenario.s12 "P1" "B" Scenario.batch))
    = projectsFS Scenario.s12.
Proof.
  apply (AddKeysToProject_not_admin Scenario.s12 "P1" "B" Scenario.batch
           Scenario.P1).
  - reflexivity.
  - cbn. intros [H|[]]. discriminate H.
Defined.

Lemma AddKeysToProject_no_keys_witness :
  projectsFS (fst (AddKeysToProject Scenario.s12 "P1" "A" []))
    = fst (AppendEntry (projectsFS Scenario.s12) "P1" 12 Scenario.P1) /\
  snd (AddKeysToProject Scenario.s12 "P1" "A" []) = None /\
  developerKeysFS (fst (AddKeysToProject Scenario.s12 "P1" "A" []))
    = developerKeysFS Scenario.s12 /\
  logger (fst (AddKeysToProject Scenario.s12 "P1" "A" [])) = [].
Proof.
  apply (AddKeysToProject_no_keys Scenario.s12 "P1" "A" Scenario.P1).
  - reflexivity.
  - cbn. left. reflexivity.
Defined.

Lemma lookup_fault_reads_as_not_found_witness :
  (snd (snd (GetProjectForBlock Scenario.s12_faulty "P9" 11))
     = snd (snd (GetProjectForBlock Scenario.s12 "P9" 11)) /\
   snd (snd (GetProjectForBlock Scenario.s12_faulty "P9" 11))
     = Some (LavaErr "GetProjectForBlock_not_found"
               [("project", "P9"); ("blockHeight", "11")]
               "project not found")) /\
  (snd (GetProjectDeveloperData Scenario.s12_faulty "D9" 11)
     = snd (GetProjectDeveloperData Scenario.s12 "D9" 11) /\
   snd (snd (GetProjectDeveloperData Scenario.s12_faulty "D9" 11))
     = Some (Errorf "GetProjectIDForDeveloper_invalid_key, the requesting key is not registered to a project, developer: D9")).
Proof.
  split.
  - apply (proj1 (lookup_fault_reads_as_not_found Scenario.s12_faulty
                    Scenario.s12 "P9" 11)
             (StoreErr StorageFaultError) false zero_Project zero_Project);
      reflexivity.
  - apply (proj2 (lookup_fault_reads_as_not_found Scenario.s12_faulty
                    Scenario.s12 "D9" 11)
             (StoreErr StorageFaultError) false zero_ProtoDeveloperData
             zero_ProtoDeveloperData);
      reflexivity.
Defined.

Lemma GetProjectForDeveloper_two_hops_witness :
  GetProjectForDeveloper Scenario.s12 "D3" 12
    = (Scenario.s12, (Scenario.P1, "vrf3", None)) /\
  snd (snd (GetProjectForDeveloper Scenario.s12 "D3" 10))
    = Some (Errorf "GetProjectIDForDeveloper_invalid_key, the requesting key is not registered to a project, developer: D3") /\
  snd (snd (GetProjectForDeveloper Scenario.s12 "D2" 12))
    = Some (LavaErr "GetProjectForDeveloper_project_not_found"
              [("developer", "D2"); ("project", "P0")]
              "the developers project was not found") /\
  GetProjectForDeveloper Scenario.s12_projects_faulty "D3" 12
    = (Scenario.s12_projects_faulty,
       (zero_Project, "", Some (StoreErr StorageFaultError))).
Proof.
  split; [|split; [|split]].
  - apply (proj1 (GetProjectForDeveloper_two_hops Scenario.s12 "D3" 12)
             (mkProtoDeveloperData "P1" "vrf3") Scenario.P1);
      reflexivity.
  - apply (proj1 (proj2 (proj2
             (GetProjectForDeveloper_two_hops Scenario.s12 "D3" 10)))).
    reflexivity.
  - apply (proj1 (proj2 (proj2 (proj2
             (GetProjectForDeveloper_two_hops Scenario.s12 "D2" 12))))
             (mkProtoDeveloperData "P0" "") zero_Project);
      reflexivity.
  - apply (proj2 (proj2 (proj2 (proj2
             (GetProjectForDeveloper_two_hops Scenario.s12_projects_faulty
                "D3" 12))))
             (mkProtoDeveloperData "P1" "vrf3") (StoreErr StorageFaultError)
             false zero_Project);
      reflexivity.
Defined.

(** C5 fails on the keeper: the developer key resolves, the lookup of its
    project meets a store whose reads fail, so the second hop does not find
    its record; the call fails, but with the error of the store and not
    with a not-found error, and nothing is reported. *)
Lemma GetProjectForDeveloper_second_hop_store_error :
  finds (FindEntry (developerKeysFS Scenario.s12_projects_faulty) "D3" 12
           zero_ProtoDeveloperData)
    = Some (mkProtoDeveloperData "P1" "vrf3") /\
  finds (FindEntry (projectsFS Scenario.s12_projects_faulty) "P1" 12
           zero_Project) = None /\
  snd (snd (GetProjectForDeveloper Scenario.s12_projects_faulty "D3" 12))
    = Some (StoreErr StorageFaultError) /\
  snd (snd (GetProjectForDeveloper Scenario.s12_projects_faulty "D3" 12))
    <> Some (LavaErr "GetProjectForDeveloper_project_not_found"
               [("developer", "D3"); ("project", "P1")]
               "the developers project was not found") /\
  snd (snd (GetProjectForDeveloper Scenario.s12_projects_faulty "D3" 12))
    <> Some (Errorf "GetProjectIDForDeveloper_invalid_key, the requesting key is not registered to a project, developer: D3") /\
  logger (fst (GetProjectForDeveloper Scenario.s12_projects_faulty "D3" 12))
    = [].
Proof.
  split; [reflexivity|]. split; [reflexivity|]. split; [reflexivity|].
  split; [discriminate|]. split; [discriminate | reflexivity].
Qed.

Lemma ETH1_policy_valid :
  chainPolicy_valid Scenario.specs (mkChainPolicy "ETH1" ["eth_call"]).
Proof.
  exists Scenario.ETH1. split; [reflexivity|]. split; [reflexivity|].
  intros a [<-|[]]. cbn. left. reflexivity.
Defined.

Lemma ETH1_prefix_valid :
  Forall (chainPolicy_valid Scenario.specs) [mkChainPolicy "ETH1" ["eth_call"]].
Proof. constructor; [exact ETH1_policy_valid | constructor]. Defined.

Lemma ValidateChainPolicies_first_violation_witness :
  ValidateChainPolicies Scenario.s12 Scenario.policy_ok
    = (Scenario.s12, None) /\
  snd (ValidateChainPolicies Scenario.s12 Scenario.policy_missing)
    = Some (LavaErr "validateChainPolicies_spec_not_found"
              [("specIndex", "")] "policy's spec not found") /\
  snd (ValidateChainPolicies Scenario.s12 Scenario.policy_disabled)
    = Some (LavaErr "validateChainPolicies_spec_not_enabled"
              [("specIndex", "OLD1")] "policy's spec not enabled") /\
  snd (ValidateChainPolicies Scenario.s12 Scenario.policy_case)
    = Some (LavaErr "validateChainPolicies_chain_policy_api_not_found"
              [("specIndex", "ETH1"); ("API", "ETH_CALL")]
              "policy's spec's API not found").
Proof.
  split; [|split; [|split]].
  - apply (proj1 (proj2 (ValidateChainPolicies_first_violation
                           Scenario.s12 Scenario.policy_ok))).
    exact ETH1_prefix_valid.
  - apply (proj1 (proj2 (proj2 (ValidateChainPolicies_first_violation
                                  Scenario.s12 Scenario.policy_missing))
                    [mkChainPolicy "ETH1" ["eth_call"]]
                    (mkChainPolicy "XXX" []) [] zero_Spec eq_refl
                    ETH1_prefix_valid)).
    reflexivity.
  - apply (proj1 (proj2 (proj2 (proj2 (ValidateChainPolicies_first_violation
                                  Scenario.s12 Scenario.policy_disabled))
                    [] (mkChainPolicy "OLD1" ["eth_call"]) [] Scenario.OLD1
                    eq_refl (List.Forall_nil _))));
      reflexivity.
  - apply (proj2 (proj2 (proj2 (proj2 (ValidateChainPolicies_first_violation
                                  Scenario.s12 Scenario.policy_case))
                    [mkChainPolicy "ETH1" ["eth_call"]]
                    (mkChainPolicy "ETH1" ["eth_getBalance"; "ETH_CALL"])
                    [mkChainPolicy "XXX" []] Scenario.ETH1 eq_refl
                    ETH1_prefix_valid))
             ["eth_getBalance"] "ETH_CALL" []).
    + reflexivity.
    + reflexivity.
    + reflexivity.
    + intros a [<-|[]]. cbn. right. left. reflexivity.
    + cbn. intros [H|[H|[]]]; discriminate H.
Defined.

(** C1 fails on the keeper: the second key of the batch is taken, the call
    returns the error of its registration, and the first key, free before
    the call, is bound to the project in the developer-key store after it. *)
Lemma AddKeysToProject_batch_not_atomic :
  snd (AddKeysToProject Scenario.s12 "P1" "A" Scenario.batch)
    = Some (LavaErr "UniquenessViolationError"
              [("developer", "D2"); ("project", "P1")]
              "developer key already bound to a project") /\
  finds (FindEntry (developerKeysFS Scenario.s12) "D1" 12
           zero_ProtoDeveloperData) = None /\
  finds (FindEntry
           (developerKeysFS
              (fst (AddKeysToProject Scenario.s12 "P1" "A" Scenario.batch)))
           "D1" 12 zero_ProtoDeveloperData)
    = Some (mkProtoDeveloperData "P1" "vrf1") /\
  developerKeysFS (fst (AddKeysToProject Scenario.s12 "P1" "A" Scenario.batch))
    <> developerKeysFS Scenario.s12.
Proof.
  split; [reflexivity|]. split; [reflexivity|]. split; [reflexivity|].
  intros H.
  apply (f_equal (fun fs => finds (FindEntry fs "D1" 12 zero_ProtoDeveloperData)))
    in H.
  vm_compute in H. discriminate H.
Qed.


(** C2 fails on the keeper: the counter holds the greatest [uint64], one
    unit is added, the call succeeds, and the counter in the caller's
    project and in the version found in the store afterwards is 0. *)
Lemma AddComputeUnitsToProject_wraps :
  UsedCu Scenario.PF + 1 = uint64_modulus /\
  snd (AddComputeUnitsToProject Scenario.s12 (Some Scenario.PF) 1) = None /\
  UsedCu <$> snd (fst (AddComputeUnitsToProject Scenario.s12
                         (Some Scenario.PF) 1)) = Some 0 /\
  UsedCu <$> finds (FindEntry
                      (projectsFS
                         (fst (fst (AddComputeUnitsToProject Scenario.s12
                                      (Some Scenario.PF) 1))))
                      "PF" 12 zero_Project) = Some 0.
Proof. repeat split. Qed.

Lemma AddComputeUnitsToProject_machine_add_witness :
  snd (fst (AddComputeUnitsToProject Scenario.s12 (Some Scenario.P1) 7))
    = Some (set_UsedCu Scenario.P1 7) /\
  snd (AddComputeUnitsToProject Scenario.s12 (Some Scenario.P1) 7) = None.
Proof.
  pose proof (AddComputeUnitsToProject_machine_add Scenario.s12 Scenario.P1 7)
    as H.
  destruct H as (H1 & _ & H3 & _).
  - split; [discriminate | reflexivity].
  - split; [discriminate | reflexivity].
  - split; [exact H1 | exact H3].
Defined.

(** C3 fails on the keeper: the lookup of an unregistered developer key
    fails, and the sink has received nothing. *)
Lemma GetProjectDeveloperData_failure_not_reported :
  snd (snd (GetProjectDeveloperData Scenario.s12 "D9" 12))
    = Some (Errorf "GetProjectIDForDeveloper_invalid_key, the requesting key is not registered to a project, developer: D9") /\
  logger (fst (GetProjectDeveloperData Scenario.s12 "D9" 12)) = [] /\
  ~ reported Scenario.s12 (fst (GetProjectDeveloperData Scenario.s12 "D9" 12))
      (Errorf "GetProjectIDForDeveloper_invalid_key, the requesting key is not registered to a project, developer: D9").
Proof.
  split; [reflexivity|]. split; [reflexivity|].
  intros (r & Hlog & _). cbn in Hlog. discriminate Hlog.
Qed.

Lemma failures_reported_to_sink_witness :
  (exists e,
     snd (snd (GetProjectForBlock Scenario.s12 "P9" 12)) = Some e /\
     reported Scenario.s12 (fst (GetProjectForBlock Scenario.s12 "P9" 12)) e) /\
  fst (GetProjectDeveloperData Scenario.s12 "D9" 12) = Scenario.s12.
Proof.
  split.
  - eexists. split; [reflexivity|].
    apply (proj1 (failures_reported_to_sink Scenario.s12) "P9" 12).
    reflexivity.
  - apply (proj2 (proj2 (proj2 (proj2 (proj2
             (failures_reported_to_sink Scenario.s12))))) "D9" 12
             (Errorf "GetProjectIDForDeveloper_invalid_key, the requesting key is not registered to a project, developer: D9")).
    reflexivity.
Defined.

(** * Further properties of the keeper *)

Section KeeperFurther.

Context `{FS : FixationStoreOps}.

Lemma read_only_effect_refl s err : read_only_effect s s err.
Proof. split; [apply same_stores_refl|]. destruct err; [by left | done]. Qed.

Lemma read_only_effect_LavaError s name attrs description :
  read_only_effect s (fst (LavaError s name attrs description))
    (Some (snd (LavaError s name attrs description))).
Proof. split; [apply LavaError_same_stores|]. right. by eexists. Qed.

Lemma GetProjectForDeveloper_read_only s developerKey blockHeight :
  read_only_effect s (fst (GetProjectForDeveloper s developerKey blockHeight))
    (snd (snd (GetProjectForDeveloper s developerKey blockHeight))).
Proof.
  unfold GetProjectForDeveloper, GetProjectDeveloperData.
  destruct (FindEntry (developerKeysFS s) _ _ _) as [[err1 found1] d].
  destruct (not_nil err1 || negb found1); [apply read_only_effect_refl|].
  destruct (FindEntry (projectsFS s) _ _ _) as [[err2 found2] p].
  destruct err2 as [e|]; [apply read_only_effect_refl|].
  destruct found2; [apply read_only_effect_refl|].
  apply read_only_effect_LavaError.
Qed.

(** X1: the four lookups of the keeper only read.  The stores, the registry
    and the block height are as before the call; a call that returns no
    error leaves the whole state as it was, and a failing call adds at most
    one record to the logger. *)
Theorem lookups_are_read_only (s : State) (index : string) (blockHeight : Z)
    (adminPolicy : bool) :
  read_only_effect s (fst (GetProjectForBlock s index blockHeight))
    (snd (snd (GetProjectForBlock s index blockHeight))) /\
  read_only_effect s (fst (GetProjectDeveloperData s index blockHeight))
    (snd (snd (GetProjectDeveloperData s index blockHeight))) /\
  read_only_effect s (fst (GetProjectForDeveloper s index blockHeight))
    (snd (snd (GetProjectForDeveloper s index blockHeight))) /\
  read_only_effect s
    (fst (GetProjectDevelopersPolicy s index blockHeight adminPolicy))
    (snd (snd (GetProjectDevelopersPolicy s index blockHeight adminPolicy))).
Proof.
  split; [|split; [|split]].
  - unfold GetProjectForBlock.
    destruct (FindEntry _ _ _ _) as [[err found] project].
    destruct (not_nil err || negb found);
      [apply read_only_effect_LavaError | apply read_only_effect_refl].
  - unfold GetProjectDeveloperData.
    destruct (FindEntry _ _ _ _) as [[err found] d].
    destruct (not_nil err || negb found); apply read_only_effect_refl.
  - apply GetProjectForDeveloper_read_only.
  - pose proof (GetProjectForDeveloper_read_only s index blockHeight) as H.
    unfold GetProjectDevelopersPolicy.
    destruct (GetProjectForDeveloper s index blockHeight)
      as [s1 [[project vrfpk] err]].
    cbn [fst snd] in H. destruct err as [e|]; [done|].
    by destruct adminPolicy.
Qed.

(** X2: when the developer key resolves and [FindEntry] on the projects
    store returns an error of its own, [GetProjectForDeveloper] hands that
    very error to the caller, with an empty vrf key, and reports nothing:
    the state is as before the call.  The same lookup through
    [GetProjectForBlock] is turned into the not-found error instead. *)
Theorem GetProjectForDeveloper_storage_error (s : State) (developerKey : string)
    (blockHeight : Z) (d : ProtoDeveloperData) (e : error) (f : bool)
    (p : Project) :
  finds (FindEntry (developerKeysFS s) developerKey blockHeight
           zero_ProtoDeveloperData) = Some d ->
  FindEntry (projectsFS s) (ProjectID d) blockHeight zero_Project
    = (Some e, f, p) ->
  GetProjectForDeveloper s developerKey blockHeight = (s, (p, "", Some e)) /\
  snd (snd (GetProjectForBlock s (ProjectID d) blockHeight))
    = Some (LavaErr "GetProjectForBlock_not_found"
              [("project", ProjectID d);
               ("blockHeight", FormatUint blockHeight)]
              "project not found").
Proof.
  intros Hd Hp. apply finds_Some in Hd.
  unfold GetProjectForDeveloper, GetProjectDeveloperData, GetProjectForBlock.
  rewrite Hd. cbn [not_nil negb orb ProjectID]. by rewrite !Hp.
Qed.

(** X3: for a developer key that [GetProjectDeveloperData] resolves,
    [GetProjectForDeveloper] succeeds exactly when [GetProjectForBlock]
    succeeds for the project the key is bound to, at the same height, and
    then returns the same project, with the vrf key of the binding. *)
Theorem GetProjectForDeveloper_agrees_with_GetProjectForBlock (s : State)
    (developerKey : string) (blockHeight : Z) (d : ProtoDeveloperData) :
  GetProjectDeveloperData s developerKey blockHeight = (s, (d, None)) ->
  let r := GetProjectForDeveloper s developerKey blockHeight in
  let rb := GetProjectForBlock s (ProjectID d) blockHeight in
  (snd (snd r) = None <-> snd (snd rb) = None) /\
  (snd (snd rb) = None ->
     r = (s, (fst (snd rb), DevVrfpk d, None))).
Proof.
  unfold GetProjectForDeveloper, GetProjectForBlock. intros ->.
  cbn zeta. cbn [fst snd].
  destruct (FindEntry (projectsFS s) _ _ _) as [[err found] p].
  destruct err as [e|]; [by cbn|].
  destruct found; by cbn.
Qed.

(** X4: [GetProjectDevelopersPolicy] is a selector over
    [GetProjectForDeveloper].  When both hops find their record it returns
    the admin policy of the project if [adminPolicy] is set and its
    subscription policy otherwise, and leaves the state alone; when it
    fails, the error is the one of [GetProjectForDeveloper] and the policy
    returned is the empty one. *)
Theorem GetProjectDevelopersPolicy_selects (s : State) (developerKey : string)
    (blockHeight : Z) (adminPolicy : bool) :
  (forall d p,
     finds (FindEntry (developerKeysFS s) developerKey blockHeight
              zero_ProtoDeveloperData) = Some d ->
     finds (FindEntry (projectsFS s) (ProjectID d) blockHeight zero_Project)
       = Some p ->
     GetProjectDevelopersPolicy s developerKey blockHeight adminPolicy
       = (s, (if adminPolicy then AdminPolicy p else SubscriptionPolicy p,
              None))) /\
  (forall e,
     snd (snd (GetProjectDevelopersPolicy s developerKey blockHeight
                 adminPolicy)) = Some e ->
     snd (snd (GetProjectForDeveloper s developerKey blockHeight)) = Some e /\
     fst (snd (GetProjectDevelopersPolicy s developerKey blockHeight
                 adminPolicy)) = mkPolicy []).
Proof.
  split.
  - intros d p Hd Hp. apply finds_Some in Hd. apply finds_Some in Hp.
    unfold GetProjectDevelopersPolicy, GetProjectForDeveloper,
      GetProjectDeveloperData.
    rewrite Hd. cbn. rewrite Hp. cbn. by destruct adminPolicy.
  - intros e. unfold GetProjectDevelopersPolicy.
    destruct (GetProjectForDeveloper s developerKey blockHeight)
      as [s1 [[project vrfpk] err]].
    destruct err as [e'|]; [by cbn|]. by destruct adminPolicy.
Qed.

(** X5: when the project is not found at the current block height, through
    an error of the store or because it is absent, [AddKeysToProject] fails
    with the project-not-found error whatever the admin key and the keys
    are; the one effect of the call is the report of that error. *)
Theorem AddKeysToProject_project_not_found (s : State)
    (projectID adminKey : string) (projectKeys : list ProjectKey) :
  finds (FindEntry (projectsFS s) projectID (uint64_of_int64 (BlockHeight s))
           zero_Project) = None ->
  AddKeysToProject s projectID adminKey projectKeys
    = (set_logger s
         (logger s ++ [mkReport "AddProjectKeys_project_not_found"
                         [("project", projectID)] "project id not found"]),
       Some (LavaErr "AddProjectKeys_project_not_found"
               [("project", projectID)] "project id not found")).
Proof.
  unfold AddKeysToProject.
  destruct (FindEntry _ _ _ _) as [[err found] project].
  destruct err as [e|]; [done|]. by destruct found.
Qed.

Lemma fold_AppendKey_fields projectKeys : forall project,
  let updated := fold_left AppendKey projectKeys project in
  ProjectKeys updated = (ProjectKeys project ++ projectKeys)%list /\
  Index updated = Index project /\
  AdminKeys updated = AdminKeys project /\
  UsedCu updated = UsedCu project /\
  AdminPolicy updated = AdminPolicy project /\
  SubscriptionPolicy updated = SubscriptionPolicy project.
Proof.
  induction projectKeys as [|projectKey rest IH]; intros project; cbn zeta.
  - cbn. by rewrite app_nil_r.
  - cbn [fold_left]. destruct (IH (AppendKey project projectKey))
      as (H1 & H2 & H3 & H4 & H5 & H6).
    rewrite H1, H2, H3, H4, H5, H6. cbn. by rewrite <- app_assoc.
Qed.

Lemma AddKeysToProject_loop_success projectKeys : forall s project s1 project1,
  AddKeysToProject_loop s project projectKeys = (s1, project1, None) ->
  project1 = fold_left AppendKey projectKeys project.
Proof.
  induction projectKeys as [|projectKey rest IH]; intros s project s1 project1;
    cbn [AddKeysToProject_loop fold_left].
  - by intros [= _ <-].
  - destruct (RegisterDeveloperKey _ _ _ _ _) as [s' err].
    destruct err as [e|]; [done|]. apply IH.
Qed.

(** X6: when the project is found, the admin key is valid and every key of
    the batch is registered, [AddKeysToProject] appends one project version
    at the current block height: the project as found with the keys of the
    batch added to its key list in the order given, every other field as it
    was.  The outcome of the call is the outcome of that append. *)
Theorem AddKeysToProject_appends_keys_in_order (s : State)
    (projectID adminKey : string) (projectKeys : list ProjectKey)
    (project : Project) (s1 : State) (project1 : Project) :
  FindEntry (projectsFS s) projectID (uint64_of_int64 (BlockHeight s))
    zero_Project = (None, true, project) ->
  In adminKey (AdminKeys project) ->
  AddKeysToProject_loop s project projectKeys = (s1, project1, None) ->
  let written :=
    AppendEntry (projectsFS s) projectID (uint64_of_int64 (BlockHeight s))
      project1 in
  AddKeysToProject s projectID adminKey projectKeys
    = (set_projectsFS s1 (fst written), snd written) /\
  ProjectKeys project1 = (ProjectKeys project ++ projectKeys)%list /\
  Index project1 = Index project /\
  AdminKeys project1 = AdminKeys project /\
  UsedCu project1 = UsedCu project /\
  AdminPolicy project1 = AdminPolicy project /\
  SubscriptionPolicy project1 = SubscriptionPolicy project.
Proof.
  intros Hfind Hadmin Hloop. apply IsAdminKey_In in Hadmin. cbn zeta. split.
  - unfold AddKeysToProject. rewrite Hfind. cbn [not_nil negb orb].
    rewrite Hadmin. cbn [negb]. rewrite Hloop.
    pose proof (AddKeysToProject_loop_frame projectKeys s project) as Hframe.
    rewrite Hloop in Hframe. cbn in Hframe. destruct Hframe as (-> & _ & ->).
    by destruct (AppendEntry _ _ _ _).
  - apply AddKeysToProject_loop_success in Hloop as ->.
    apply fold_AppendKey_fields.
Qed.

Lemma wrap64_range z : in_uint64 (wrap64 z).
Proof. unfold in_uint64, wrap64. by apply Z.mod_pos_bound. Qed.

(** X7: whatever the counter and [cu] are, the project
    [AddComputeUnitsToProject] leaves behind the caller's pointer differs
    from the one passed in by its counter only, the counter is a [uint64]
    value again, and the developer-key store and the logger are as before.
    Adding 0 to a counter in range leaves the project as it was. *)
Theorem AddComputeUnitsToProject_keeps_project (s : State) (p : Project)
    (cu : Z) :
  let r := AddComputeUnitsToProject s (Some p) cu in
  exists p',
    snd (fst r) = Some p' /\
    in_uint64 (UsedCu p') /\
    Index p' = Index p /\
    AdminKeys p' = AdminKeys p /\
    ProjectKeys p' = ProjectKeys p /\
    AdminPolicy p' = AdminPolicy p /\
    SubscriptionPolicy p' = SubscriptionPolicy p /\
    developerKeysFS (fst (fst r)) = developerKeysFS s /\
    logger (fst (fst r)) = logger s /\
    (in_uint64 (UsedCu p) -> cu = 0 -> p' = p).
Proof.
  cbn zeta. unfold AddComputeUnitsToProject.
  destruct (ModifyEntry _ _ _ _) as [fs' err].
  eexists. split; [reflexivity|]. cbn.
  repeat split; try apply wrap64_range.
  intros Hp ->. destruct p as [i a k u ap sp]. cbn in *.
  unfold set_UsedCu, uint64_add, wrap64. cbn. rewrite Z.add_0_r.
  by rewrite Z.mod_small.
Qed.

(** X8: two calls of [AddComputeUnitsToProject] on the same project add up:
    the counter after both is the sum of the counter and the two amounts,
    reduced modulo 2^64, the same as after one call with the machine sum of
    the two amounts. *)
Theorem AddComputeUnitsToProject_accumulates (s : State) (p : Project)
    (cu1 cu2 : Z) :
  let r1 := AddComputeUnitsToProject s (Some p) cu1 in
  let r2 := AddComputeUnitsToProject (fst (fst r1)) (snd (fst r1)) cu2 in
  snd (fst r2) = Some (set_UsedCu p (wrap64 (UsedCu p + cu1 + cu2))) /\
  snd (fst r2)
    = snd (fst (AddComputeUnitsToProject s (Some p) (uint64_add cu1 cu2))).
Proof.
  cbn zeta. unfold AddComputeUnitsToProject.
  destruct (ModifyEntry (projectsFS s) _ _ (set_UsedCu p (uint64_add (UsedCu p) cu1)))
    as [fs1 err1].
  cbn [fst snd].
  destruct (ModifyEntry (projectsFS (set_projectsFS s fs1)) _ _ _) as [fs2 err2].
  destruct (ModifyEntry (projectsFS s) _ _
              (set_UsedCu p (uint64_add (UsedCu p) (uint64_add cu1 cu2))))
    as [fs3 err3].
  cbn [fst snd]. unfold set_UsedCu, uint64_add, wrap64. cbn.
  rewrite Zplus_mod_idemp_l, Zplus_mod_idemp_r, Z.add_assoc. by split.
Qed.

End KeeperFurther.

(** * Further properties of the policy validator *)

Section ValidatorFurther.

Context `{FS : FixationStoreOps}.

Lemma chainPolicy_violation_not_valid registry chainPolicy e :
  chainPolicy_violation registry chainPolicy e ->
  ~ chainPolicy_valid registry chainPolicy.
Proof.
  intros (spec & found & Hreg & Hcase) (spec' & Hreg' & Hen & Hall).
  rewrite Hreg in Hreg'. injection Hreg' as <- ->.
  destruct Hcase as [(Hf & _) | [(_ & Hdis & _) | (_ & _ & Hapi)]].
  - discriminate Hf.
  - congruence.
  - destruct Hapi as (listed & api & others & Hsplit & _ & Hmiss & _).
    apply Hmiss, Hall. rewrite Hsplit. apply in_or_app. right. by left.
Qed.

Lemma policyApis_loop_failure spec policyApis s s' e :
  policyApis_loop s spec policyApis = (s', Some e) ->
  exists listed policyApi others,
    policyApis = (listed ++ policyApi :: others)%list /\
    (forall a, In a listed -> In a (map Name (SpecApis spec))) /\
    ~ In policyApi (map Name (SpecApis spec)) /\
    e = LavaErr "validateChainPolicies_chain_policy_api_not_found"
          [("specIndex", SpecIndex spec); ("API", policyApi)]
          "policy's spec's API not found" /\
    s' = set_logger s (logger s ++ [mkReport
           "validateChainPolicies_chain_policy_api_not_found"
           [("specIndex", SpecIndex spec); ("API", policyApi)]
           "policy's spec's API not found"]).
Proof.
  induction policyApis as [|policyApi rest IH]; cbn [policyApis_loop]; [done|].
  destruct (foundApi_loop (SpecApis spec) policyApi false) eqn:Hf; cbn [negb].
  - intros Hrest. apply IH in Hrest
      as (listed & api & others & -> & Hall & Hmiss & -> & ->).
    exists (policyApi :: listed), api, others. repeat split; try done.
    intros a [<-|Ha]; [by apply foundApi_loop_In | by apply Hall].
  - cbn. intros [= <- <-]. exists [], policyApi, rest. repeat split; try done.
    intros Hin. apply foundApi_loop_In in Hin. congruence.
Qed.

Lemma policyApis_loop_success spec policyApis s s' :
  policyApis_loop s spec policyApis = (s', None) ->
  s' = s /\
  forall a, In a policyApis -> In a (map Name (SpecApis spec)).
Proof.
  induction policyApis as [|policyApi rest IH]; cbn [policyApis_loop].
  - by intros [= <-].
  - destruct (foundApi_loop (SpecApis spec) policyApi false) eqn:Hf;
      cbn [negb]; [|done].
    intros Hrest. apply IH in Hrest as (-> & Hall). split; [done|].
    intros a [<-|Ha]; [by apply foundApi_loop_In | by apply Hall].
Qed.

Lemma chainPolicies_loop_success chainPolicies s s' :
  chainPolicies_loop s chainPolicies = (s', None) ->
  s' = s /\ Forall (chainPolicy_valid (specKeeper s)) chainPolicies.
Proof.
  induction chainPolicies as [|chainPolicy rest IH];
    cbn [chainPolicies_loop].
  - intros [= <-]. by split.
  - destruct (specKeeper s (ChainId chainPolicy)) as [spec found] eqn:Hreg.
    destruct found; cbn [negb]; [|done].
    destruct (Enabled spec) eqn:Hen; cbn [negb]; [|done].
    destruct (policyApis_loop s spec (Apis chainPolicy)) as [s1 err] eqn:Hapis.
    destruct err as [e|]; [done|].
    apply policyApis_loop_success in Hapis as (-> & Hall).
    intros Hrest. apply IH in Hrest as (-> & Hvalid). split; [done|].
    constructor; [|done]. by exists spec.
Qed.

Lemma chainPolicies_loop_failure chainPolicies s s' e :
  chainPolicies_loop s chainPolicies = (s', Some e) ->
  exists passed chainPolicy rest,
    chainPolicies = (passed ++ chainPolicy :: rest)%list /\
    Forall (chainPolicy_valid (specKeeper s)) passed /\
    chainPolicy_violation (specKeeper s) chainPolicy e /\
    exists r : Report,
      s' = set_logger s (logger s ++ [r]) /\ e = error_of_report r.
Proof.
  induction chainPolicies as [|chainPolicy rest IH];
    cbn [chainPolicies_loop]; [done|].
  destruct (specKeeper s (ChainId chainPolicy)) as [spec found] eqn:Hreg.
  destruct found; cbn [negb].
  - destruct (Enabled spec) eqn:Hen; cbn [negb].
    + destruct (policyApis_loop s spec (Apis chainPolicy)) as [s1 err] eqn:Hapis.
      destruct err as [e'|].
      * intros [= <- <-].
        apply policyApis_loop_failure in Hapis
          as (listed & api & others & Hsplit & Hall & Hmiss & -> & ->).
        exists [], chainPolicy, rest. repeat split; try done.
        -- exists spec, true. split; [done|]. right. right.
           repeat split; try done. by exists listed, api, others.
        -- by eexists.
      * apply policyApis_loop_success in Hapis as (-> & Hall).
        intros Hrest. apply IH in Hrest
          as (passed & cp & rest' & -> & Hpassed & Hviol & Hrep).
        exists (chainPolicy :: passed), cp, rest'. repeat split; try done.
        constructor; [|done]. by exists spec.
    + cbn. intros [= <- <-]. exists [], chainPolicy, rest.
      repeat split; try done.
      * exists spec, true. split; [done|]. right. left. by repeat split.
      * by eexists.
  - cbn. intros [= <- <-]. exists [], chainPolicy, rest.
    repeat split; try done.
    + exists spec, false. split; [done|]. left. by split.
    + by eexists.
Qed.

Lemma chainPolicies_loop_success_iff chainPolicies s :
  snd (chainPolicies_loop s chainPolicies) = None <->
  Forall (chainPolicy_valid (specKeeper s)) chainPolicies.
Proof.
  split.
  - destruct (chainPolicies_loop s chainPolicies) as [s' err] eqn:Hloop.
    cbn. intros ->. by apply chainPolicies_loop_success in Hloop as (_ & H).
  - intros Hall. rewrite <- (app_nil_r chainPolicies).
    by rewrite chainPolicies_loop_skip_valid.
Qed.

(** X9: [ValidateChainPolicies] returns no error exactly when every chain
    policy has an enabled spec that lists each of its API names; and when it
    returns no error the state is as before the call, the logger too. *)
Theorem ValidateChainPolicies_success_iff_valid (s : State) (policy : Policy) :
  (snd (ValidateChainPolicies s policy) = None <->
   Forall (chainPolicy_valid (specKeeper s)) (ChainPolicies policy)) /\
  (snd (ValidateChainPolicies s policy) = None ->
   fst (ValidateChainPolicies s policy) = s).
Proof.
  unfold ValidateChainPolicies. split.
  - apply chainPolicies_loop_success_iff.
  - destruct (chainPolicies_loop s (ChainPolicies policy)) as [s' err] eqn:Hloop.
    cbn. intros ->. by apply chainPolicies_loop_success in Hloop as (-> & _).
Qed.

(** X10: every error of [ValidateChainPolicies] is the error of the first
    chain policy that does not pass: the chain policies before it are all
    valid, it is not, the error is the spec-not-found, the spec-not-enabled
    or the API-not-found error of that chain policy, and the logger has
    received that one error and nothing else. *)
Theorem ValidateChainPolicies_failure (s : State) (policy : Policy) (e : error) :
  snd (ValidateChainPolicies s policy) = Some e ->
  exists passed chainPolicy rest,
    ChainPolicies policy = (passed ++ chainPolicy :: rest)%list /\
    Forall (chainPolicy_valid (specKeeper s)) passed /\
    ~ chainPolicy_valid (specKeeper s) chainPolicy /\
    chainPolicy_violation (specKeeper s) chainPolicy e /\
    exists r : Report,
      fst (ValidateChainPolicies s policy) = set_logger s (logger s ++ [r]) /\
      e = error_of_report r.
Proof.
  unfold ValidateChainPolicies.
  destruct (chainPolicies_loop s (ChainPolicies policy)) as [s' err] eqn:Hloop.
  cbn. intros ->.
  apply chainPolicies_loop_failure in Hloop
    as (passed & cp & rest & Hsplit & Hpassed & Hviol & Hrep).
  exists passed, cp, rest. repeat split; try done.
  by eapply chainPolicy_violation_not_valid.
Qed.

(** X11: whether a policy passes does not depend on the order of its chain
    policies: a policy with the same chain policies in another order passes
    if and only if the first one does (the error of a failing one may
    differ). *)
Theorem ValidateChainPolicies_order_irrelevant (s : State)
    (policy policy' : Policy) :
  Permutation (ChainPolicies policy) (ChainPolicies policy') ->
  (snd (ValidateChainPolicies s policy) = None <->
   snd (ValidateChainPolicies s policy') = None).
Proof.
  intros Hperm. unfold ValidateChainPolicies.
  rewrite !chainPolicies_loop_success_iff.
  split; apply Permutation_Forall; [done | by symmetry].
Qed.

End ValidatorFurther.

(** * The further properties on concrete states *)

Lemma GetProjectForDeveloper_storage_error_witness :
  GetProjectForDeveloper Scenario.s12_projects_faulty "D3" 12
    = (Scenario.s12_projects_faulty,
       (zero_Project, "", Some (StoreErr StorageFaultError))) /\
  snd (snd (GetProjectForBlock Scenario.s12_projects_faulty "P1" 12))
    = Some (LavaErr "GetProjectForBlock_not_found"
              [("project", "P1"); ("blockHeight", "12")]
              "project not found").
Proof.
  apply (GetProjectForDeveloper_storage_error Scenario.s12_projects_faulty
           "D3" 12 (mkProtoDeveloperData "P1" "vrf3")
           (StoreErr StorageFaultError) false zero_Project);
    reflexivity.
Defined.

Lemma GetProjectForDeveloper_agrees_with_GetProjectForBlock_witness :
  (snd (snd (GetProjectForDeveloper Scenario.s12 "D3" 12)) = None <->
   snd (snd (GetProjectForBlock Scenario.s12 "P1" 12)) = None) /\
  (snd (snd (GetProjectForBlock Scenario.s12 "P1" 12)) = None ->
   GetProjectForDeveloper Scenario.s12 "D3" 12
     = (Scenario.s12,
        (fst (snd (GetProjectForBlock Scenario.s12 "P1" 12)), "vrf3", None))).
Proof.
  apply (GetProjectForDeveloper_agrees_with_GetProjectForBlock Scenario.s12
           "D3" 12 (mkProtoDeveloperData "P1" "vrf3")).
  reflexivity.
Defined.

Lemma GetProjectDevelopersPolicy_selects_witness :
  GetProjectDevelopersPolicy Scenario.s12_policies "D4" 12 true
    = (Scenario.s12_policies, (Scenario.policy_ok, None)) /\
  GetProjectDevelopersPolicy Scenario.s12_policies "D4" 12 false
    = (Scenario.s12_policies, (Scenario.policy_disabled, None)).
Proof.
  split.
  - apply (proj1 (GetProjectDevelopersPolicy_selects Scenario.s12_policies
                    "D4" 12 true)
             (mkProtoDeveloperData "P2" "vrf4") Scenario.P2);
      reflexivity.
  - apply (proj1 (GetProjectDevelopersPolicy_selects Scenario.s12_policies
                    "D4" 12 false)
             (mkProtoDeveloperData "P2" "vrf4") Scenario.P2);
      reflexivity.
Defined.

Lemma AddKeysToProject_project_not_found_witness :
  AddKeysToProject Scenario.s12 "P9" "A" Scenario.batch
    = (set_logger Scenario.s12
         [mkReport "AddProjectKeys_project_not_found" [("project", "P9")]
            "project id not found"],
       Some (LavaErr "AddProjectKeys_project_not_found" [("project", "P9")]
               "project id not found")).
Proof.
  apply (AddKeysToProject_project_not_found Scenario.s12 "P9" "A"
           Scenario.batch).
  reflexivity.
Defined.

Lemma AddKeysToProject_appends_keys_in_order_witness :
  snd (AddKeysToProject Scenario.s12 "P1" "A" Scenario.free_batch) = None /\
  ProjectKeys <$>
    finds (FindEntry
             (projectsFS
                (fst (AddKeysToProject Scenario.s12 "P1" "A"
                        Scenario.free_batch)))
             "P1" 12 zero_Project)
    = Some Scenario.free_batch.
Proof.
  pose proof (AddKeysToProject_appends_keys_in_order Scenario.s12 "P1" "A"
                Scenario.free_batch Scenario.P1
                (fst (fst (AddKeysToProject_loop Scenario.s12 Scenario.P1
                             Scenario.free_batch)))
                (snd (fst (AddKeysToProject_loop Scenario.s12 Scenario.P1
                             Scenario.free_batch)))) as H.
  destruct H as (H & _).
  - reflexivity.
  - cbn. left. reflexivity.
  - reflexivity.
  - rewrite H. split; reflexivity.
Defined.

Lemma AddComputeUnitsToProject_keeps_project_witness :
  snd (fst (AddComputeUnitsToProject Scenario.s12 (Some Scenario.PF) 0))
    = Some Scenario.PF.
Proof.
  destruct (AddComputeUnitsToProject_keeps_project Scenario.s12 Scenario.PF 0)
    as (p' & Hp' & _ & _ & _ & _ & _ & _ & _ & _ & Hzero).
  rewrite Hp'. f_equal. apply Hzero.
  - split; [discriminate | reflexivity].
  - reflexivity.
Defined.

Lemma ValidateChainPolicies_success_iff_valid_witness :
  snd (ValidateChainPolicies Scenario.s12 Scenario.policy_ok) = None /\
  ~ Forall (chainPolicy_valid Scenario.specs)
      (ChainPolicies Scenario.policy_case).
Proof.
  split.
  - apply (proj1 (ValidateChainPolicies_success_iff_valid Scenario.s12
                    Scenario.policy_ok)).
    exact ETH1_prefix_valid.
  - intros Hall.
    apply (proj1 (ValidateChainPolicies_success_iff_valid Scenario.s12
                    Scenario.policy_case)) in Hall.
    discriminate Hall.
Defined.

Lemma ValidateChainPolicies_failure_witness :
  exists passed chainPolicy rest,
    ChainPolicies Scenario.policy_missing
      = (passed ++ chainPolicy :: rest)%list /\
    Forall (chainPolicy_valid Scenario.specs) passed /\
    ~ chainPolicy_valid Scenario.specs chainPolicy /\
    chainPolicy_violation Scenario.specs chainPolicy
      (LavaErr "validateChainPolicies_spec_not_found" [("specIndex", "")]
         "policy's spec not found") /\
    exists r : Report,
      fst (ValidateChainPolicies Scenario.s12 Scenario.policy_missing)
        = set_logger Scenario.s12 (logger Scenario.s12 ++ [r]) /\
      LavaErr "validateChainPolicies_spec_not_found" [("specIndex", "")]
        "policy's spec not found" = error_of_report r.
Proof.
  apply (ValidateChainPolicies_failure Scenario.s12 Scenario.policy_missing).
  reflexivity.
Defined.

Lemma ValidateChainPolicies_order_irrelevant_witness :
  snd (ValidateChainPolicies Scenario.s12 Scenario.policy_missing) = None <->
  snd (ValidateChainPolicies Scenario.s12
         (mkPolicy [mkChainPolicy "XXX" []; mkChainPolicy "ETH1" ["eth_call"]]))
    = None.
Proof.
  apply (ValidateChainPolicies_order_irrelevant Scenario.s12
           Scenario.policy_missing).
  apply perm_swap.
Defined.

(** * The command over a small model of the SDK

    Coins of a single denomination are an integer amount, an address is its
    text, and an account is the tuple of its kind, address, original
    vesting, start or end time and periods. *)

Abbreviation model_account := (string * string * Z * Z * list (GenAccounts.Period Z))%type.

Abbreviation model_periodicAccount :=
  (GenAccounts.periodicAccount string Z Z string model_account
     (fun e => e)
     (fun c => if c <? 0 then Some "negative coin amount" else None)
     Z.quot Z.mul Z.eqb Z.add (fun n => n)
     (fun b c start periods => ("periodic", b, c, start, periods))).

Abbreviation model_makeAccount :=
  (GenAccounts.makeAccount string Z Z string unit string (string * Z * Z)
     model_account
     (fun e => e) (fun c => c) (fun c => c =? 0) (fun a b => b <? a)
     (fun c => if c <? 0 then Some "negative coin amount" else None)
     Z.quot Z.mul Z.eqb Z.add (fun n => n) (fun a => a)
     (fun addr _ _ _ => addr) (fun _ a => a) (fun name => "module:" ++ name)
     "burner" "staking"
     (fun b _ _ => ("module", b, 0, 0, []))
     (fun b c e => (b, c, e)) (fun v => snd (fst v))
     (fun b c start periods => ("periodic", b, c, start, periods))
     (fun v start => ("continuous", fst (fst v), snd (fst v), start, []))
     (fun v => ("delayed", fst (fst v), snd (fst v), snd v, []))
     (fun b => ("base", b, 0, 0, []))).

Abbreviation model_bech32 :=
  (fun s : string =>
     if String.prefix "lava1" s then (s, None)
     else ("", Some "decoding bech32 failed")).

Abbreviation model_resolveAddress :=
  (GenAccounts.resolveAddress string string unit unit unit string
     model_bech32 (fun _ _ => (tt, None)) (fun _ name => (name, None))
     (fun info => ("lava1" ++ info, None))).

Abbreviation model_buildAccount :=
  (GenAccounts.buildAccount string Z Z string unit unit unit unit string
     string (string * Z * Z) model_account
     (fun e => e)
     (fun s => if String.eqb s "" then (0, None)
               else (0, Some "invalid coin expression"))
     (fun c => c) (fun c => c =? 0) (fun a b => b <? a)
     (fun c => if c <? 0 then Some "negative coin amount" else None)
     Z.quot Z.mul Z.eqb Z.add (fun n => n)
     model_bech32 (fun a => a)
     (fun _ _ => (tt, None)) (fun _ name => (name, None))
     (fun info => ("lava1" ++ info, None))
     (fun addr _ _ _ => addr) (fun _ a => a) (fun name => "module:" ++ name)
     "burner" "staking"
     (fun b _ _ => ("module", b, 0, 0, []))
     (fun b c e => (b, c, e)) (fun v => snd (fst v))
     (fun b c start periods => ("periodic", b, c, start, periods))
     (fun v start => ("continuous", fst (fst v), snd (fst v), start, []))
     (fun v => ("delayed", fst (fst v), snd (fst v), snd v, []))
     (fun b => ("base", b, 0, 0, []))
     (fun _ => None)).

Lemma periodicAccount_success_witness :
  model_periodicAccount "lava1abc"
    (GenAccounts.mkVestingParams Z 5 0 1000 30 2 1000)
  = GenAccounts.Ok string _
      ("periodic", "lava1abc", 2000, 5,
       [GenAccounts.mkPeriod Z 0 1000; GenAccounts.mkPeriod Z 30 500;
        GenAccounts.mkPeriod Z 30 500]).
Proof.
  apply GenAccounts.periodicAccount_success. cbn.
  repeat split; reflexivity.
Defined.

Lemma makeAccount_balance_witness :
  GenAccounts.BalanceCoins Z (GenAccounts.mkBalance Z "lava1abc" 3000) = 3000 /\
  GenAccounts.Address Z (GenAccounts.mkBalance Z "lava1abc" 3000) = "lava1abc".
Proof.
  apply (GenAccounts.makeAccount_balance string Z Z string unit string
           (string * Z * Z) model_account
           (fun e => e) (fun c => c) (fun c => c =? 0) (fun a b => b <? a)
           (fun c => if c <? 0 then Some "negative coin amount" else None)
           Z.quot Z.mul Z.eqb Z.add (fun n => n) (fun a => a)
           (fun addr _ _ _ => addr) (fun _ a => a)
           (fun name => "module:" ++ name) "burner" "staking"
           (fun b _ _ => ("module", b, 0, 0, []))
           (fun b c e => (b, c, e)) (fun v => snd (fst v))
           (fun b c start periods => ("periodic", b, c, start, periods))
           (fun v start => ("continuous", fst (fst v), snd (fst v), start, []))
           (fun v => ("delayed", fst (fst v), snd (fst v), snd v, []))
           (fun b => ("base", b, 0, 0, []))
           "lava1abc" "lava1abc" 3000 false
           (GenAccounts.mkVestingParams Z 5 0 1000 30 2 1000)
           ("periodic", "lava1abc", 2000, 5,
            [GenAccounts.mkPeriod Z 0 1000; GenAccounts.mkPeriod Z 30 500;
             GenAccounts.mkPeriod Z 30 500])
           (GenAccounts.mkBalance Z "lava1abc" 3000)).
  reflexivity.
Defined.

Lemma vesting_parameters_not_looked_at_witness :
  model_makeAccount "lava1abc" "lava1abc" 3000 false
    (GenAccounts.mkVestingParams Z 5 9 0 30 2 0)
  = GenAccounts.Ok string _
      (("base", "lava1abc", 0, 0, []),
       GenAccounts.mkBalance Z "lava1abc" 3000).
Proof.
  etrans; [apply GenAccounts.vesting_parameters_not_looked_at|]; reflexivity.
Defined.

Lemma makeAccount_vesting_times_witness :
  model_makeAccount "lava1abc" "lava1abc" 3000 false
    (GenAccounts.mkVestingParams Z 5 0 1000 0 0 1000)
  = GenAccounts.Err string _
      (GenAccounts.ErrorsNew string
         "invalid vesting parameters; must supply start and end time or end time").
Proof.
  apply (GenAccounts.makeAccount_vesting_times string Z Z string unit string
           (string * Z * Z) model_account
           (fun e => e) (fun c => c) (fun c => c =? 0) (fun a b => b <? a)
           (fun c => if c <? 0 then Some "negative coin amount" else None)
           Z.quot Z.mul Z.eqb Z.add (fun n => n) (fun a => a)
           (fun addr _ _ _ => addr) (fun _ a => a)
           (fun name => "module:" ++ name) "burner" "staking"
           (fun b _ _ => ("module", b, 0, 0, []))
           (fun b c e => (b, c, e)) (fun v => snd (fst v))
           (fun b c start periods => ("periodic", b, c, start, periods))
           (fun v start => ("continuous", fst (fst v), snd (fst v), start, []))
           (fun v => ("delayed", fst (fst v), snd (fst v), snd v, []))
           (fun b => ("base", b, 0, 0, []))
           "lava1abc" "lava1abc" 3000
           (GenAccounts.mkVestingParams Z 5 0 1000 0 0 1000));
    reflexivity.
Defined.

Lemma resolveAddress_without_keyring_witness :
  model_resolveAddress
    (GenAccounts.mkCommand string unit unit
       (GenAccounts.registered_flags "~/.lava" "os") (tt, None) tt)
    tt "lava1abc" false
  = GenAccounts.Ok string _ "lava1abc".
Proof.
  apply (proj1 (GenAccounts.resolveAddress_without_keyring string string unit
                  unit unit string model_bech32 (fun _ _ => (tt, None))
                  (fun _ name => (name, None))
                  (fun info => ("lava1" ++ info, None))
                  (GenAccounts.mkCommand string unit unit
                     (GenAccounts.registered_flags "~/.lava" "os")
                     (tt, None) tt)
                  tt "lava1abc" false)).
  reflexivity.
Defined.

Lemma registered_flags_well_kinded (defaultNodeHome DefaultKeyringBackend : string) :
  GenAccounts.well_kinded
    (GenAccounts.registered_flags defaultNodeHome DefaultKeyringBackend).
Proof.
  intros name v. unfold GenAccounts.registered_flags.
  repeat (rewrite lookup_insert_Some;
          intros [[<- <-] | [_ H]]; [by eexists | revert H]).
  by rewrite lookup_empty.
Defined.

Lemma flags_read_are_registered_witness :
  GenAccounts.avoids string (GenAccounts.flag_error string)
    (model_buildAccount
       (GenAccounts.mkCommand string unit unit
          (GenAccounts.registered_flags "~/.lava" "os") (tt, None) tt)
       "lava1abc" "") /\
  model_buildAccount
    (GenAccounts.mkCommand string unit unit
       (GenAccounts.registered_flags "~/.lava" "os") (tt, None) tt)
    "lava1abc" ""
  = GenAccounts.Ok string _
      (tt, "lava1abc", ("base", "lava1abc", 0, 0, []),
       GenAccounts.mkBalance Z "lava1abc" 0).
Proof.
  split.
  - apply GenAccounts.flags_read_are_registered.
    apply registered_flags_well_kinded.
  - reflexivity.
Defined.

(** * The developer-key store after a failed batch

    The statements of this part are about the fixation store modelled from
    the spec. *)

Lemma SpecStore_append_found {T : Type} (fs fs' : SpecStore.Store T)
    (index : string) (height : Z) (entry out : T) :
  SpecStore.io_fault fs = false ->
  SpecStore.AppendEntry fs index height entry = (fs', None) ->
  SpecStore.FindEntry fs' index height out = (None, true, entry).
Proof.
  intros Hio. unfold SpecStore.AppendEntry, SpecStore.FindEntry.
  destruct (SpecStore.entries fs !! index) as [[|latest older]|];
    [| destruct (height =? SpecStore.version_height latest); [done|];
       destruct (height <? SpecStore.version_height latest); [done|] | ];
    intros [= <-]; cbn [SpecStore.io_fault SpecStore.entries];
    rewrite Hio, lookup_insert_eq; cbn [find];
    unfold SpecStore.visible_at; cbn [SpecStore.version_height
      SpecStore.tombstone_height SpecStore.payload];
    by rewrite Z.leb_refl.
Qed.

Lemma SpecStore_append_other {T : Type} (fs fs' : SpecStore.Store T)
    (index index' : string) (height height' : Z) (entry out : T)
    (err : option error) :
  SpecStore.AppendEntry fs index height entry = (fs', err) ->
  index' <> index ->
  SpecStore.FindEntry fs' index' height' out
    = SpecStore.FindEntry fs index' height' out.
Proof.
  unfold SpecStore.AppendEntry, SpecStore.FindEntry. intros Happ Hne.
  destruct (SpecStore.entries fs !! index) as [[|latest older]|];
    [| destruct (height =? SpecStore.version_height latest);
       [by injection Happ as <- _|];
       destruct (height <? SpecStore.version_height latest);
       [by injection Happ as <- _|] | ];
    injection Happ as <- _; cbn [SpecStore.io_fault SpecStore.entries];
    by rewrite lookup_insert_ne.
Qed.

Lemma SpecStore_append_refused {T : Type} (fs fs' : SpecStore.Store T)
    (index : string) (height : Z) (entry : T) (e : error) :
  SpecStore.AppendEntry fs index height entry = (fs', Some e) -> fs' = fs.
Proof.
  unfold SpecStore.AppendEntry.
  destruct (SpecStore.entries fs !! index) as [[|latest older]|]; [done| |done].
  destruct (height =? SpecStore.version_height latest); [by intros [= <-]|].
  destruct (height <? SpecStore.version_height latest); [by intros [= <-]|done].
Qed.

(** A successful registration binds the key, which was free, and keeps
    every binding that was there. *)
Lemma RegisterDeveloperKey_registered (s s' : State)
    (developerKey projectID : string) (blockHeight : Z) (vrfpk : string) :
  RegisterDeveloperKey s developerKey projectID blockHeight vrfpk = (s', None) ->
  finds (FindEntry (developerKeysFS s') developerKey blockHeight
           zero_ProtoDeveloperData)
    = Some (mkProtoDeveloperData projectID vrfpk) /\
  forall key d,
    finds (FindEntry (developerKeysFS s) key blockHeight
             zero_ProtoDeveloperData) = Some d ->
    finds (FindEntry (developerKeysFS s') key blockHeight
             zero_ProtoDeveloperData) = Some d.
Proof.
  unfold RegisterDeveloperKey. cbn [FindEntry AppendEntry SpecFS].
  destruct (SpecStore.FindEntry (developerKeysFS s) developerKey blockHeight
              zero_ProtoDeveloperData) as [[err found] d0] eqn:Hfind.
  destruct err as [e|]; [done|]. destruct found; [done|].
  destruct (SpecStore.AppendEntry _ _ _ _) as [fs' err'] eqn:Happ.
  intros [= <- ->]. cbn [developerKeysFS set_developerKeysFS].
  assert (SpecStore.io_fault (developerKeysFS s) = false) as Hio.
  { revert Hfind. unfold SpecStore.FindEntry.
    by destruct (SpecStore.io_fault (developerKeysFS s)). }
  split.
  - by rewrite (SpecStore_append_found _ _ _ _ _ _ Hio Happ).
  - intros key d Hd.
    destruct (decide (key = developerKey)) as [->|Hne].
    + rewrite Hfind in Hd. discriminate Hd.
    + by rewrite (SpecStore_append_other _ _ _ _ _ _ _ _ _ Happ Hne).
Qed.

(** A failed registration keeps every binding that was there. *)
Lemma RegisterDeveloperKey_failed (s s' : State)
    (developerKey projectID : string) (blockHeight : Z) (vrfpk : string)
    (e : error) :
  RegisterDeveloperKey s developerKey projectID blockHeight vrfpk
    = (s', Some e) ->
  developerKeysFS s' = developerKeysFS s.
Proof.
  unfold RegisterDeveloperKey. cbn [FindEntry AppendEntry SpecFS].
  destruct (SpecStore.FindEntry (developerKeysFS s) developerKey blockHeight
              zero_ProtoDeveloperData) as [[err found] d0].
  destruct err as [e'|]; [by intros [= <- _]|].
  destruct found; [by intros [= <- _]|].
  destruct (SpecStore.AppendEntry _ _ _ _) as [fs' err'] eqn:Happ.
  intros [= <- ->]. cbn [developerKeysFS set_developerKeysFS].
  by apply SpecStore_append_refused in Happ.
Qed.

(** After a run of the loop in which every registration succeeded, each key
    of the run is bound to the project, and every binding that was there
    before is kept. *)
Lemma AddKeysToProject_loop_registered (projectKeys : list ProjectKey) :
  forall (s s' : State) (project project' : Project),
  AddKeysToProject_loop s project projectKeys = (s', project', None) ->
  (forall projectKey, In projectKey projectKeys ->
     finds (FindEntry (developerKeysFS s') (Key projectKey)
              (uint64_of_int64 (BlockHeight s)) zero_ProtoDeveloperData)
       = Some (mkProtoDeveloperData (Index project) (Vrfpk projectKey))) /\
  (forall key d,
     finds (FindEntry (developerKeysFS s) key
              (uint64_of_int64 (BlockHeight s)) zero_ProtoDeveloperData)
       = Some d ->
     finds (FindEntry (developerKeysFS s') key
              (uint64_of_int64 (BlockHeight s)) zero_ProtoDeveloperData)
       = Some d).
Proof.
  induction projectKeys as [|projectKey rest IH]; intros s s' project project';
    cbn [AddKeysToProject_loop].
  - intros [= <- _]. by split.
  - pose proof (RegisterDeveloperKey_frame s (Key projectKey) (Index project)
                  (uint64_of_int64 (BlockHeight s)) (Vrfpk projectKey))
      as Hframe.
    destruct (RegisterDeveloperKey s _ _ _ _) as [s1 err] eqn:Hreg.
    destruct err as [e|]; [done|].
    cbn in Hframe. destruct Hframe as (_ & _ & Hheight).
    apply RegisterDeveloperKey_registered in Hreg as (Hbound & Hkept).
    intros Hloop. apply IH in Hloop as (Hrest & Hkept').
    rewrite Hheight in Hrest, Hkept'. split.
    + intros pk [<-|Hin]; [by apply Hkept'|]. by apply Hrest.
    + intros key d Hd. by apply Hkept', Hkept.
Qed.

(** C1, as the keeper has it: when the registration of a key of the batch
    fails, [AddKeysToProject] returns that error and writes no project
    version, so the projects store is as before the call; the keys before
    the failing one have been registered one after the other, and each of
    them is found in the developer-key store that the call returns, bound
    to the project. *)
Theorem AddKeysToProject_failed_batch_keeps_registrations (s : State)
    (projectID adminKey : string) (projectKeys : list ProjectKey)
    (project : Project) (s1 : State) (project1 : Project) (e : error) :
  FindEntry (projectsFS s) projectID (uint64_of_int64 (BlockHeight s))
    zero_Project = (None, true, project) ->
  In adminKey (AdminKeys project) ->
  AddKeysToProject_loop s project projectKeys = (s1, project1, Some e) ->
  AddKeysToProject s projectID adminKey projectKeys = (s1, Some e) /\
  projectsFS s1 = projectsFS s /\
  exists registered failing rest s_mid,
    projectKeys = (registered ++ failing :: rest)%list /\
    AddKeysToProject_loop s project registered = (s_mid, project1, None) /\
    RegisterDeveloperKey s_mid (Key failing) (Index project1)
      (uint64_of_int64 (BlockHeight s_mid)) (Vrfpk failing) = (s1, Some e) /\
    forall projectKey, In projectKey registered ->
      finds (FindEntry (developerKeysFS s1) (Key projectKey)
               (uint64_of_int64 (BlockHeight s)) zero_ProtoDeveloperData)
        = Some (mkProtoDeveloperData (Index project) (Vrfpk projectKey)).
Proof.
  intros Hfind Hadmin Hloop.
  destruct (AddKeysToProject_registration_failure s projectID adminKey
              projectKeys project s1 project1 e Hfind Hadmin Hloop)
    as (Hcall & Hprojects & registered & failing & rest & s_mid
        & Hsplit & Hpre & Hfail).
  split; [done|]. split; [done|].
  exists registered, failing, rest, s_mid. repeat split; try done.
  apply AddKeysToProject_loop_registered in Hpre as (Hbound & _).
  apply RegisterDeveloperKey_failed in Hfail as ->.
  exact Hbound.
Qed.

Lemma AddKeysToProject_failed_batch_keeps_registrations_witness :
  AddKeysToProject Scenario.s12 "P1" "A" Scenario.batch
    = (fst (fst (AddKeysToProject_loop Scenario.s12 Scenario.P1 Scenario.batch)),
       Some (LavaErr "UniquenessViolationError"
               [("developer", "D2"); ("project", "P1")]
               "developer key already bound to a project")) /\
  projectsFS (fst (fst (AddKeysToProject_loop Scenario.s12 Scenario.P1
                          Scenario.batch)))
    = projectsFS Scenario.s12 /\
  exists registered failing rest s_mid,
    Scenario.batch = (registered ++ failing :: rest)%list /\
    AddKeysToProject_loop Scenario.s12 Scenario.P1 registered
      = (s_mid, AppendKey Scenario.P1 (mkProjectKey "D1" "vrf1"), None) /\
    RegisterDeveloperKey s_mid (Key failing) "P1"
      (uint64_of_int64 (BlockHeight s_mid)) (Vrfpk failing)
      = (fst (fst (AddKeysToProject_loop Scenario.s12 Scenario.P1
                     Scenario.batch)),
         Some (LavaErr "UniquenessViolationError"
                 [("developer", "D2"); ("project", "P1")]
                 "developer key already bound to a project")) /\
    forall projectKey, In projectKey registered ->
      finds (FindEntry
               (developerKeysFS
                  (fst (fst (AddKeysToProject_loop Scenario.s12 Scenario.P1
                               Scenario.batch))))
               (Key projectKey) 12 zero_ProtoDeveloperData)
        = Some (mkProtoDeveloperData "P1" (Vrfpk projectKey)).
Proof.
  apply (AddKeysToProject_failed_batch_keeps_registrations Scenario.s12 "P1"
           "A" Scenario.batch Scenario.P1
           (fst (fst (AddKeysToProject_loop Scenario.s12 Scenario.P1
                        Scenario.batch)))
           (AppendKey Scenario.P1 (mkProjectKey "D1" "vrf1"))
           (LavaErr "UniquenessViolationError"
              [("developer", "D2"); ("project", "P1")]
              "developer key already bound to a project")).
  - reflexivity.
  - cbn. left. reflexivity.
  - reflexivity.
Defined.
